(** * deckset-inline: the directive engine of [deckset_inline/inliner.py]

    A shallow embedding of the inliner: the comment-line extractor, the
    directive parser, the [InlineDirective] model with its validation, the
    content generator and the line-by-line [result_generator].

    Conventions of the embedding.
    - A Python [str] is a [string]; a character is a code point below 256.
    - A Python [int] that counts input lines ([lineno]) is a [nat]; the
      [start] and [end] attributes, which may be negative, are [Z].
    - A generator is the list of the lines it yields together with the way
      it stops: exhausted, or by raising an exception ([Gen]).
    - What the code takes from outside is a field of the class [World]:
      the events [html.parser.HTMLParser.feed] delivers and the way it
      stops, the text [str(Path(s))], the state of the file system and
      [sys.maxsize].  The definitions and the theorems hold a [World] in
      their context; the examples run on [demo_world]. *)

From Stdlib Require Import String Ascii List Arith ZArith Lia Bool.
From Stdlib Require Import DecimalString.
Import ListNotations.

Local Open Scope string_scope.
Local Open Scope nat_scope.
Local Open Scope list_scope.

(** String concatenation, written apart from the append of lists. *)
Infix "+++" := String.append (right associativity, at level 60).

(** ** Exceptions *)

(** The exceptions the engine can end with.  [InlineError] is the one
    declared by the module; the others are Python's own.  [AssertionError]
    is the one of a failed [assert] of the module; [LibraryError] is an
    exception a library call raises by itself, with the name of its class
    and its message. *)
Inductive PyError : Type :=
| InlineError (message line : string) (lineno : nat)
| AssertionError
| TypeError (message : string)
| ValueError (message : string)
| UnboundLocalError (name : string)
| AttributeError (message : string)
| OSError (message : string)
| Exception (message : string)
| LibraryError (class_name message : string).

Definition is_InlineError (e : PyError) : bool :=
  match e with InlineError _ _ _ => true | _ => false end.

(** [str(n)] for a line number. *)
Definition str_of_nat (n : nat) : string :=
  NilZero.string_of_uint (Nat.to_uint n).

Definition newline : string := String (ascii_of_nat 10) EmptyString.

(** [str(InlineError(message, line, lineno))]:
    [f"Line {lineno}: {message}\n{line}"]. *)
Definition InlineError_str (message line : string) (lineno : nat) : string :=
  "Line " +++ str_of_nat lineno +++ ": " +++ message +++ newline +++ line.

Inductive result (A : Type) : Type :=
| Ok (a : A)
| Raise (e : PyError).
Arguments Ok {A} a.
Arguments Raise {A} e.

(** ** Generators

    [Gen A]: the lines yielded, then either a value or an exception.  The
    lines yielded before an exception are kept: the consumer has already
    received them when the exception reaches it. *)
Definition Gen (A : Type) : Type := (list string * result A)%type.

Definition gret {A} (a : A) : Gen A := ([], Ok a).
Definition gyield (l : string) : Gen unit := ([l], Ok tt).
Definition gyield_from (ls : list string) : Gen unit := (ls, Ok tt).
Definition graise {A} (e : PyError) : Gen A := ([], Raise e).
Definition glift {A} (r : result A) : Gen A := ([], r).

Definition gbind {A B} (m : Gen A) (k : A -> Gen B) : Gen B :=
  match m with
  | (out, Ok a) => let (out', r) := k a in (out ++ out', r)
  | (out, Raise e) => (out, Raise e)
  end.

Declare Scope gen_scope.
Delimit Scope gen_scope with gen.
Notation "x <- m ;; k" := (gbind m (fun x => k))
  (at level 61, m at next level, right associativity) : gen_scope.
Notation "m ;; k" := (gbind m (fun _ => k))
  (at level 61, right associativity) : gen_scope.

Definition rbind {A B} (m : result A) (k : A -> result B) : result B :=
  match m with Ok a => k a | Raise e => Raise e end.

(** ** Characters and strings *)

(** [\s] of a [str] pattern: the code points below 256 for which
    [str.isspace] holds. *)
Definition is_space (c : ascii) : bool :=
  let n := nat_of_ascii c in
  ((9 <=? n) && (n <=? 13)) || ((28 <=? n) && (n <=? 32))
  || (n =? 133) || (n =? 160).

Fixpoint skip_spaces (s : string) : string :=
  match s with
  | String c s' => if is_space c then skip_spaces s' else s
  | EmptyString => EmptyString
  end.

(** [s] without the prefix [p], when it starts with it. *)
Fixpoint strip_prefix (p s : string) : option string :=
  match p, s with
  | EmptyString, _ => Some s
  | String a p', String b s' =>
      if Ascii.eqb a b then strip_prefix p' s' else None
  | String _ _, EmptyString => None
  end.

Definition starts_with (p s : string) : bool :=
  match strip_prefix p s with Some _ => true | None => false end.

(** ** Comment-line extractor

    [COMMENT_RE = re.compile(r"^\s*<!--\s*(.*?)\s*-->")], used with
    [match]: white space, the opening marker, white space, then the
    shortest run of characters other than a line feed after which white
    space and the closing marker follow. *)
Definition closes_here (s : string) : bool := starts_with "-->" (skip_spaces s).

Fixpoint lazy_group (s : string) : option string :=
  if closes_here s then Some EmptyString
  else match s with
       | EmptyString => None
       | String c s' =>
           if Ascii.eqb c (ascii_of_nat 10) then None
           else option_map (String c) (lazy_group s')
       end.

Definition COMMENT_RE_match (line : string) : option string :=
  match strip_prefix "<!--" (skip_spaces line) with
  | Some rest => lazy_group (skip_spaces rest)
  | None => None
  end.

(** [extract_line_comment]: group 1 of the match, or [None]. *)
Definition extract_line_comment (line : string) : option string :=
  match COMMENT_RE_match line with
  | Some group1 => Some group1
  | None => None
  end.

(** ** [int(str)]

    Base ten: surrounding white space, an optional sign, then digits in
    which single underscores may separate digits.  The white space of
    [int] is narrower than [\s]: the separators 28 to 31 are not in it. *)
Definition is_int_space (c : ascii) : bool :=
  let n := nat_of_ascii c in
  ((9 <=? n) && (n <=? 13)) || (n =? 32) || (n =? 133) || (n =? 160).

Fixpoint skip_int_spaces (s : string) : string :=
  match s with
  | String c s' => if is_int_space c then skip_int_spaces s' else s
  | EmptyString => EmptyString
  end.

Definition is_digit (c : ascii) : bool :=
  let n := nat_of_ascii c in (48 <=? n) && (n <=? 57).

Definition digit_val (c : ascii) : Z := Z.of_nat (nat_of_ascii c - 48).

(** [digits acc after_digit s]: [after_digit] tells whether the character
    before [s] was a digit (an underscore needs one on both sides). *)
Fixpoint digits (acc : Z) (after_digit : bool) (s : string) : option Z :=
  match s with
  | EmptyString => if after_digit then Some acc else None
  | String c s' =>
      if is_digit c then digits (10 * acc + digit_val c) true s'
      else if Ascii.eqb c "_" then
             if after_digit then
               match s' with
               | String d _ => if is_digit d then digits acc false s' else None
               | EmptyString => None
               end
             else None
           else if is_int_space c then
                  match skip_int_spaces s' with
                  | EmptyString => if after_digit then Some acc else None
                  | String _ _ => None
                  end
                else None
  end.

Definition py_int (s : string) : option Z :=
  match skip_int_spaces s with
  | String "-" s' => option_map Z.opp (digits 0 false s')
  | String "+" s' => digits 0 false s'
  | s' => digits 0 false s'
  end.

(** ** Data model *)

Inductive TagType : Type := OPENING | CLOSING.

(** The dataclass [InlineDirective] after [__post_init__]: [start] and
    [end] already coerced to integers.  [source] keeps the text given in
    the directive; the file system is addressed by it. *)
Record InlineDirective : Type := mkInlineDirective {
  type : TagType;
  lineno : nat;
  line : string;
  source : option string;
  verbatim : bool;
  lang : option string;
  start : option Z;
  end_ : option Z
}.

(** What a path of the file system holds when the engine looks at it.
    [Missing]: [Path.exists()] returns false.  [Inaccessible]: it raises
    an [OSError] of its own, which it does for every error of [stat] other
    than a missing path (no search permission on a directory, a name too
    long); the constructor carries the text of that exception.
    [Unreadable]: the path exists and [open] raises, the constructor
    carrying the text of the exception.  [Readable]: the lines read. *)
Inductive FileState : Type :=
| Missing
| Inaccessible (message : string)
| Unreadable (message : string)
| Readable (lines : list string).

(** One call of [handle_starttag]: the tag name and the attribute list, a
    value being [None] for an attribute written without one. *)
Definition StartTag : Type := (string * list (string * option string))%type.

(** [dict(attrs)], [key in d], [d[key]] and [d.get(key)]: a later pair
    replaces an earlier one with the same key. *)
Fixpoint dict_lookup (key : string) (attrs : list (string * option string))
  : option (option string) :=
  match attrs with
  | [] => None
  | (k, v) :: rest =>
      match dict_lookup key rest with
      | Some v' => Some v'
      | None => if String.eqb k key then Some v else None
      end
  end.

Definition dict_contains (key : string) (attrs : list (string * option string)) : bool :=
  match dict_lookup key attrs with Some _ => true | None => false end.

Definition dict_get (key : string) (attrs : list (string * option string))
  : option string :=
  match dict_lookup key attrs with Some v => v | None => None end.

(** [itertools.islice(iterable, start, stop)], whose arguments are
    checked when the slice is built.  [maxsize] is [sys.maxsize]; an index
    is read as a machine integer between [-maxsize - 1] and [maxsize].
    The stop is looked at first: [-1] or a value outside that range is
    refused with the message about the stop argument.  A start outside the
    range counts as [-1].  Then a negative start or stop is refused with
    the message about the indices.  A stop below the start gives no line. *)
Definition islice_stop_message : string :=
  "Stop argument for islice() must be None or an integer: 0 <= x <= sys.maxsize.".

Definition islice_indices_message : string :=
  "Indices for islice() must be None or an integer: 0 <= x <= sys.maxsize.".

Definition ssize_range (maxsize x : Z) : bool :=
  ((- maxsize - 1 <=? x) && (x <=? maxsize))%Z.

Definition islice (maxsize : Z) (lines : list string) (start : Z)
           (stop : option Z) : result (list string) :=
  let stop_refused :=
    match stop with
    | Some e => (e =? -1)%Z || negb (ssize_range maxsize e)
    | None => false
    end in
  if stop_refused then Raise (ValueError islice_stop_message)
  else
    let start := if ssize_range maxsize start then start else (-1)%Z in
    let stop_negative :=
      match stop with Some e => (e <? -1)%Z | None => false end in
    if (start <? 0)%Z || stop_negative then
      Raise (ValueError islice_indices_message)
    else
      match stop with
      | None => Ok (skipn (Z.to_nat start) lines)
      | Some e =>
          Ok (firstn (Z.to_nat e - Z.to_nat start) (skipn (Z.to_nat start) lines))
      end.

(** ** What the engine takes from outside *)

(** How [HTMLParser.feed] can stop after the start tags it delivered: by
    calling [error] with a message (the library before Python 3.10), or
    by raising an exception by itself (since then: an [AssertionError] of
    the markup base class). *)
Inductive FeedStop : Type :=
| CallsError (message : string)
| FeedRaises (class_name message : string).

(** [html_feed text]: [HTMLParser.feed(text)] as the subclass sees it, the
    calls of [handle_starttag] in order, then the way the feed stops, if
    it does not return.  [path_str s]: [str(Path(s))].  [fs]: the file
    system, unchanged during a scan.  [sys_maxsize]: [sys.maxsize]. *)
Class World : Type := {
  html_feed : string -> list StartTag * option FeedStop;
  path_str : string -> string;
  fs : string -> FileState;
  sys_maxsize : positive
}.

(** ** Definitions that follow the wording of the specification *)

(** Lines [S] through [min(E,N)] of a file of [N] lines, counted from 1,
    both ends included. *)
Definition lines_between (file : list string) (S E : nat) : list string :=
  map (fun i => nth (i - 1) file EmptyString)
      (seq S (Nat.min E (length file) + 1 - S)).

(** The pattern [^<(inline|python)\s] of the specification: the tag name
    [inline] or [python] after the bracket, then any white space. *)
Definition spec_opening_pattern (text : string) : bool :=
  match strip_prefix "<inline" text, strip_prefix "<python" text with
  | Some (String c _), _ | None, Some (String c _) => is_space c
  | _, _ => false
  end.

(** ** Predicates on strings used in the statements *)

Fixpoint all_space (s : string) : bool :=
  match s with
  | EmptyString => true
  | String c s' => is_space c && all_space s'
  end.

Fixpoint has_line_feed (s : string) : bool :=
  match s with
  | EmptyString => false
  | String c s' => Ascii.eqb c (ascii_of_nat 10) || has_line_feed s'
  end.

(** The closing marker of a comment occurs somewhere in [s]. *)
Fixpoint has_close_marker (s : string) : bool :=
  starts_with "-->" s
  || match s with
     | EmptyString => false
     | String _ s' => has_close_marker s'
     end.

Definition starts_with_space (s : string) : bool :=
  match s with
  | EmptyString => false
  | String c _ => is_space c
  end.

Fixpoint ends_with_space (s : string) : bool :=
  match s with
  | EmptyString => false
  | String c EmptyString => is_space c
  | String _ s' => ends_with_space s'
  end.

(** What the engine can tell of a path without reading it: the lines of a
    readable file are put aside. *)
Definition file_kind (f : FileState) : FileState :=
  match f with
  | Readable _ => Readable []
  | other => other
  end.

(** ** A reference tokenizer and a small file system

    What [HTMLParser.feed] delivers on the marker grammar: start tags whose
    attributes are written [name], [name=value], [name="value"] or
    [name='value'], names in lower case.  Text and end tags deliver
    nothing, a tag the text leaves unfinished delivers nothing, and on
    this grammar (no declaration, no processing instruction, no character
    reference) the feed always returns.  The examples below run the
    engine on it. *)
Inductive Lexer : Type :=
| LText
| LOpen
| LSkip
| LName (tag : string)
| LAttrs (tag : string) (attrs : list (string * option string))
| LAttrName (tag : string) (attrs : list (string * option string)) (name : string)
| LAfterName (tag : string) (attrs : list (string * option string)) (name : string)
| LBeforeValue (tag : string) (attrs : list (string * option string)) (name : string)
| LQuoted (tag : string) (attrs : list (string * option string)) (name : string)
          (quote : ascii) (value : string)
| LBare (tag : string) (attrs : list (string * option string)) (name : string)
        (value : string).

Definition is_letter (c : ascii) : bool :=
  let n := nat_of_ascii c in
  ((65 <=? n) && (n <=? 90)) || ((97 <=? n) && (n <=? 122)).

Definition lower (c : ascii) : ascii :=
  let n := nat_of_ascii c in
  if (65 <=? n) && (n <=? 90) then ascii_of_nat (n + 32) else c.

Definition dquote : ascii := ascii_of_nat 34.

Definition snoc (s : string) (c : ascii) : string := s +++ String c EmptyString.

Definition lexer_step (st : Lexer) (c : ascii) : Lexer * option StartTag :=
  match st with
  | LText => (if Ascii.eqb c "<" then LOpen else LText, None)
  | LOpen =>
      if is_letter c then (LName (String (lower c) EmptyString), None)
      else if Ascii.eqb c "<" then (LOpen, None)
      else if Ascii.eqb c "/" then (LSkip, None)
      else (LText, None)
  | LSkip => (if Ascii.eqb c ">" then LText else LSkip, None)
  | LName tag =>
      if Ascii.eqb c ">" then (LText, Some (tag, []))
      else if is_space c || Ascii.eqb c "/" then (LAttrs tag [], None)
      else (LName (snoc tag (lower c)), None)
  | LAttrs tag attrs =>
      if Ascii.eqb c ">" then (LText, Some (tag, attrs))
      else if is_space c || Ascii.eqb c "/" then (LAttrs tag attrs, None)
      else (LAttrName tag attrs (String (lower c) EmptyString), None)
  | LAttrName tag attrs name =>
      if Ascii.eqb c ">" then (LText, Some (tag, attrs ++ [(name, None)]))
      else if Ascii.eqb c "=" then (LBeforeValue tag attrs name, None)
      else if is_space c then (LAfterName tag attrs name, None)
      else if Ascii.eqb c "/" then (LAttrs tag (attrs ++ [(name, None)]), None)
      else (LAttrName tag attrs (snoc name (lower c)), None)
  | LAfterName tag attrs name =>
      if Ascii.eqb c ">" then (LText, Some (tag, attrs ++ [(name, None)]))
      else if Ascii.eqb c "=" then (LBeforeValue tag attrs name, None)
      else if is_space c then (LAfterName tag attrs name, None)
      else (LAttrName tag (attrs ++ [(name, None)]) (String (lower c) EmptyString), None)
  | LBeforeValue tag attrs name =>
      if Ascii.eqb c ">" then (LText, Some (tag, attrs ++ [(name, Some EmptyString)]))
      else if is_space c then (LBeforeValue tag attrs name, None)
      else if Ascii.eqb c dquote || Ascii.eqb c "'" then
             (LQuoted tag attrs name c EmptyString, None)
           else (LBare tag attrs name (String c EmptyString), None)
  | LQuoted tag attrs name quote value =>
      if Ascii.eqb c quote then (LAttrs tag (attrs ++ [(name, Some value)]), None)
      else (LQuoted tag attrs name quote (snoc value c), None)
  | LBare tag attrs name value =>
      if Ascii.eqb c ">" then (LText, Some (tag, attrs ++ [(name, Some value)]))
      else if is_space c then (LAttrs tag (attrs ++ [(name, Some value)]), None)
      else (LBare tag attrs name (snoc value c), None)
  end.

Fixpoint lexer_run (st : Lexer) (text : string) : list StartTag :=
  match text with
  | EmptyString => []
  | String c rest =>
      let (st', event) := lexer_step st c in
      match event with
      | Some t => t :: lexer_run st' rest
      | None => lexer_run st' rest
      end
  end.

Definition marker_feed (text : string) : list StartTag * option FeedStop :=
  (lexer_run LText text, None).

Definition nl (s : string) : string := s +++ newline.

(** [f] of two lines, [ten] of ten, [nested] whose only line is an opening
    marker, [locked] that cannot be opened, [vault/f] in a directory that
    cannot be searched; no other path exists. *)
Definition demo_fs (path : string) : FileState :=
  if String.eqb path "f" then Readable [nl "a"; nl "b"]
  else if String.eqb path "ten" then
         Readable (map (fun i => nl ("line " +++ str_of_nat i)) (seq 1 10))
  else if String.eqb path "nested" then
         Readable [nl "<!-- <inline src=f> -->"]
  else if String.eqb path "locked" then
         Unreadable "[Errno 13] Permission denied: 'locked'"
  else if String.eqb path "vault/f" then
         Inaccessible "[Errno 13] Permission denied: 'vault/f'"
  else Missing.

Definition demo_path_str (s : string) : string := s.

(** Input lines of the examples. *)
Definition tab : string := String (ascii_of_nat 9) EmptyString.
Definition opening_f : string := nl "<!-- <inline src=f> -->".
Definition opening_nested : string := nl "<!-- <inline src=nested> -->".
Definition opening_missing : string := nl "<!-- <inline src=nope> -->".
Definition opening_ten_4_6 : string := nl "<!-- <inline src=ten start=4 end='6'> -->".
Definition opening_start_0 : string := nl "<!-- <python src=f start='0'> -->".
Definition opening_start_minus_2 : string := nl "<!-- <inline src=f start=-2> -->".
Definition opening_two_tags : string := nl "<!-- <inline src=f><inline src=f> -->".
Definition opening_unterminated : string := nl "<!-- <inline src='f' -->".
Definition opening_with_tab : string :=
  nl ("<!-- <inline" +++ tab +++ "src=f> -->").
Definition closing_inline : string := nl "<!-- </inline> -->".

Definition scenario_A : list string :=
  [nl "head"; opening_f; closing_inline; nl "tail"].
Definition scenario_C : list string := [nl "head"; opening_f].

(** The world made of a parser, a path printer, a file system and the
    largest index. *)
Definition world_of (feed : string -> list StartTag * option FeedStop)
           (pstr : string -> string) (files : string -> FileState)
           (maxsize : positive) : World :=
  {| html_feed := feed; path_str := pstr; fs := files; sys_maxsize := maxsize |}.

(** [sys.maxsize] of a 64-bit build: [2^63 - 1]. *)
Definition demo_maxsize : positive := 9223372036854775807%positive.

Definition demo_world : World :=
  {| html_feed := marker_feed; path_str := demo_path_str; fs := demo_fs;
     sys_maxsize := demo_maxsize |}.

(** A second file system: the same paths, every readable file changed. *)
Definition demo_fs_changed (path : string) : FileState :=
  match demo_fs path with
  | Readable lines => Readable (map (fun l => "changed " +++ l) lines ++ [nl "more"])
  | other => other
  end.

Definition opening_vault : string := nl "<!-- <inline src=vault/f> -->".
Definition opening_end_huge : string :=
  nl "<!-- <inline src=ten start=4 end=9223372036854775808> -->".
Definition opening_no_src : string := nl "<!-- <inline start=1> -->".
Definition opening_end_minus_1 : string := nl "<!-- <inline src=f end=-1> -->".
Definition scenario_stale : list string :=
  [nl "head"; opening_f; nl "old"; closing_inline; nl "tail"].

Section Inliner.

Context {W : World}.

(** *** [InlineDirective]: construction and validation *)

(** [InlineDirective.raise_error]. *)
Definition raise_error {A} (line : string) (lineno : nat) (msg : string)
  : result A :=
  Raise (InlineError msg line lineno).

(** [InlineDirective.validate_source]: presence, then [exists()], then
    [open("r")], any exception of which becomes the message of the error.
    [exists()] is called outside the [try]: an [OSError] it raises leaves
    the constructor as it is.  [source] comes from the attribute
    dictionary and is a [str] or [None], so the [isinstance] test never
    fires. *)
Definition validate_source (line : string) (lineno : nat)
           (source : option string) : result string :=
  match source with
  | None => raise_error line lineno "Source attribute must be present in directive"
  | Some src =>
      match fs src with
      | Missing =>
          raise_error line lineno ("File " +++ path_str src +++ " not found")
      | Inaccessible ex => Raise (OSError ex)
      | Unreadable ex => raise_error line lineno ex
      | Readable _ => Ok src
      end
  end.

(** [int(self.start)] and [int(self.end)] of [__post_init__], a
    [ValueError] becoming a directive error. *)
Definition coerce_int (line : string) (lineno : nat) (name : string)
           (value : option string) : result (option Z) :=
  match value with
  | None => Ok None
  | Some s =>
      match py_int s with
      | Some z => Ok (Some z)
      | None =>
          raise_error line lineno
            ("Invalid value " +++ s +++ " for " +++ name +++ " attribute")
      end
  end.

(** The constructor followed by [__post_init__], which returns at once
    for a closing directive (only ever built with the defaults, [start]
    and [end] being [None]) and otherwise validates the source, then
    coerces [start], then [end]. *)
Definition InlineDirective_new (type : TagType) (lineno : nat) (line : string)
           (source : option string) (verbatim : bool) (lang : option string)
           (start end_ : option string) : result InlineDirective :=
  match type with
  | CLOSING =>
      Ok (mkInlineDirective CLOSING lineno line source verbatim lang None None)
  | OPENING =>
      rbind (validate_source line lineno source) (fun src =>
      rbind (coerce_int line lineno "start" start) (fun start' =>
      rbind (coerce_int line lineno "end" end_) (fun end' =>
      Ok (mkInlineDirective OPENING lineno line (Some src) verbatim lang
                            start' end'))))
  end.

(** *** Content generator *)

(** [InlineDirective.contents]: the opening fence if [verbatim], the
    lines of the source between the bounds, the closing fence if
    [verbatim].  The file is opened after the opening fence is yielded. *)
Definition fence_open (d : InlineDirective) : list string :=
  if verbatim d then
    ["```" +++ match lang d with Some l => l | None => EmptyString end +++ newline]
  else [].

Definition fence_close (d : InlineDirective) : list string :=
  if verbatim d then ["```" +++ newline] else [].

Definition open_source (d : InlineDirective) : result (list string) :=
  match source d with
  | None => Raise (AttributeError "'NoneType' object has no attribute 'open'")
  | Some src =>
      match fs src with
      | Readable lines => Ok lines
      | Unreadable ex => Raise (OSError ex)
      | Inaccessible ex => Raise (OSError ex)
      | Missing => Raise (OSError "No such file or directory")
      end
  end.

Definition contents (d : InlineDirective) : Gen unit :=
  (let start := match start d with Some s => (s - 1)%Z | None => 0%Z end in
   let stop := end_ d in
   gyield_from (fence_open d) ;;
   fin <- glift (open_source d) ;;
   body <- glift (islice (Zpos sys_maxsize) fin start stop) ;;
   gyield_from body ;;
   gyield_from (fence_close d))%gen.

(** *** Directive parser *)

(** The two fields [DirectiveParser] adds to [HTMLParser]. *)
Record DirectiveParser : Type := mkDirectiveParser {
  tag : option string;
  attrs : option (list (string * option string))
}.

Definition DirectiveParser_init : DirectiveParser := mkDirectiveParser None None.

(** [handle_starttag]: [assert self.tag is None], then both fields are
    set. *)
Definition handle_starttag (self : DirectiveParser) (t : StartTag)
  : result DirectiveParser :=
  match tag self with
  | None => Ok (mkDirectiveParser (Some (fst t)) (Some (snd t)))
  | Some _ => Raise AssertionError
  end.

Fixpoint handle_all (self : DirectiveParser) (events : list StartTag)
  : result DirectiveParser :=
  match events with
  | [] => Ok self
  | t :: rest => rbind (handle_starttag self t) (fun self' => handle_all self' rest)
  end.

(** [parser.feed(directive)] on a fresh parser: the start tags go to
    [handle_starttag]; then the feed returns, or calls [error], which
    raises a plain [Exception], or raises by itself. *)
Definition DirectiveParser_feed (text : string) : result DirectiveParser :=
  let (events, stop) := html_feed text in
  rbind (handle_all DirectiveParser_init events) (fun self =>
  match stop with
  | Some (CallsError message) => Raise (Exception message)
  | Some (FeedRaises class_name message) =>
      Raise (LibraryError class_name message)
  | None => Ok self
  end).

(** [re.search(r"^<(inline|python) ", directive)]. *)
Definition looks_like_opening (directive : string) : bool :=
  starts_with "<inline " directive || starts_with "<python " directive.

(** [directive in ("</inline>", "</python>")]. *)
Definition is_closing_text (directive : string) : bool :=
  String.eqb directive "</inline>" || String.eqb directive "</python>".

Definition str_of_tag (t : option string) : string :=
  match t with Some s => s | None => "None" end.

(** [parser.tag == name]. *)
Definition tag_is (parser : DirectiveParser) (name : string) : bool :=
  match tag parser with
  | Some t => String.eqb t name
  | None => false
  end.

(** The branch of [parse_directive] taken for a text that looks like an
    opening directive.  When the tag is neither [python] nor [inline],
    [verbatim] is read before it was ever assigned. *)
Definition parse_opening (directive line : string) (lineno : nat)
  : result InlineDirective :=
  rbind (DirectiveParser_feed directive) (fun parser =>
  match attrs parser with
  | None => Raise (TypeError "'NoneType' object is not iterable")
  | Some attrs =>
      if negb (dict_contains "src" attrs) then
        Raise (InlineError ("Attribute 'src' not set for "
                            +++ str_of_tag (tag parser) +++ " directive")
                           line lineno)
      else
        let src := dict_get "src" attrs in
        let start := dict_get "start" attrs in
        let end_ := dict_get "end" attrs in
        if tag_is parser "python" then
          InlineDirective_new OPENING lineno line src true (Some "python")
                              start end_
        else if tag_is parser "inline" then
          InlineDirective_new OPENING lineno line src
            (dict_contains "verbatim" attrs || dict_contains "lang" attrs)
            (dict_get "lang" attrs) start end_
        else Raise (UnboundLocalError "verbatim")
  end).

(** [parse_directive]: [None] for a line that is no comment or whose
    comment is no directive. *)
Definition parse_directive (line : string) (lineno : nat)
  : result (option InlineDirective) :=
  match extract_line_comment line with
  | None => Ok None
  | Some directive =>
      if looks_like_opening directive then
        rbind (parse_opening directive line lineno) (fun d => Ok (Some d))
      else if is_closing_text directive then
        rbind (InlineDirective_new CLOSING lineno line None true None None None)
              (fun d => Ok (Some d))
      else Ok None
  end.

(** *** Stream transformer *)

(** [f"New directive found while previous is still open at line
    {current_directive.lineno}"]. *)
Definition nesting_message (current : InlineDirective) : string :=
  "New directive found while previous is still open at line "
  +++ str_of_nat (lineno current).

(** The body of the [for] loop of [result_generator]: one input line
    with its number, in the state [current_directive]; the value is the
    state after the line. *)
Definition loop_body (clean : bool) (current_directive : option InlineDirective)
           (lineno : nat) (line : string) : Gen (option InlineDirective) :=
  (match current_directive with
   | None => gyield line
   | Some _ => gret tt
   end ;;
   directive <- glift (parse_directive line lineno) ;;
   match directive with
   | Some directive =>
       match type directive with
       | OPENING =>
           match current_directive with
           | Some current =>
               graise (InlineError (nesting_message current) line lineno)
           | None =>
               (if clean then gret tt else contents directive) ;;
               gret (Some directive)
           end
       | CLOSING => gyield line ;; gret None
       end
   | None => gret current_directive
   end)%gen.

(** [for lineno, line in enumerate(input_lines, lineno)]. *)
Fixpoint for_lines (clean : bool) (current_directive : option InlineDirective)
         (lineno : nat) (input_lines : list string)
  : Gen (option InlineDirective) :=
  match input_lines with
  | [] => gret current_directive
  | line :: rest =>
      (current <- loop_body clean current_directive lineno line ;;
       for_lines clean current (S lineno) rest)%gen
  end.

(** [result_generator]: the loop from line 1 with no directive open, then
    the test at the end of the input. *)
Definition result_generator (input_lines : list string) (clean : bool)
  : Gen unit :=
  (current_directive <- for_lines clean None 1 input_lines ;;
   match current_directive with
   | Some current =>
       graise (InlineError "Directive not closed at end of file"
                           (line current) (lineno current))
   | None => gret tt
   end)%gen.

(** [consume_iterator]: the lines are dropped, the way the generator
    stops is kept. *)
Definition consume_iterator {A} (iterator : Gen A) : result A := snd iterator.

(** [check]: the generator is run for its exception only. *)
Definition check (input_lines : list string) (clean : bool) : result unit :=
  consume_iterator (result_generator input_lines clean).

(** [inline]: every line of the generator is written to the standard
    output; the value is what was written and how the call ended. *)
Definition inline (input_lines : list string) (clean : bool) : Gen unit :=
  result_generator input_lines clean.

(** *** Predicates used in the statements *)

(** A line that is no directive on syntactic grounds alone: it is no
    comment line, or its comment text neither looks like an opening
    directive nor is a closing one. *)
Definition is_plain (line : string) : bool :=
  match extract_line_comment line with
  | None => true
  | Some directive =>
      negb (looks_like_opening directive) && negb (is_closing_text directive)
  end.

(** The directive [d] as the line number [n] would have given it. *)
Definition relabel (n : nat) (d : InlineDirective) : InlineDirective :=
  mkInlineDirective (type d) n (line d) (source d) (verbatim d) (lang d)
                    (start d) (end_ d).

Definition is_open (current : option InlineDirective) : bool :=
  match current with Some _ => true | None => false end.

(** What the first statement of the loop body yields. *)
Definition passed_through (current : option InlineDirective) (l : string)
  : list string :=
  match current with None => [l] | Some _ => [] end.

(** No closing directive is met while no directive is open, in a scan
    of [input_lines] numbered from [lineno] that starts with a directive
    open or not ([current]). *)
Fixpoint idle_close_free (current : bool) (lineno : nat)
         (input_lines : list string) : bool :=
  match input_lines with
  | [] => true
  | l :: rest =>
      match parse_directive l lineno with
      | Raise _ => true
      | Ok None => idle_close_free current (S lineno) rest
      | Ok (Some d) =>
          match type d with
          | OPENING => idle_close_free true (S lineno) rest
          | CLOSING => current && idle_close_free false (S lineno) rest
          end
      end
  end.

(** No line generated for an opening directive of [input_lines] is
    itself a directive line. *)
Fixpoint bodies_plain (lineno : nat) (input_lines : list string) : bool :=
  match input_lines with
  | [] => true
  | l :: rest =>
      match parse_directive l lineno with
      | Ok (Some d) =>
          match type d with
          | OPENING => forallb is_plain (fst (contents d))
          | CLOSING => true
          end
      | _ => true
      end && bodies_plain (S lineno) rest
  end.

(** The result of [parse_directive] on the same line at the line number
    [n]: the number is the only thing that changes, in the directive and
    in a directive error. *)
Definition renumber (n : nat) (r : result (option InlineDirective))
  : result (option InlineDirective) :=
  match r with
  | Ok None => Ok None
  | Ok (Some d) => Ok (Some (relabel n d))
  | Raise (InlineError message l _) => Raise (InlineError message l n)
  | Raise e => Raise e
  end.

(** *** Documents made of ordinary lines and closed directive pairs *)

Inductive Block : Type :=
| Text (l : string)
| Pair (opening : string) (between : list string) (closing : string).

Definition block_input (b : Block) : list string :=
  match b with
  | Text l => [l]
  | Pair opening between closing => opening :: between ++ [closing]
  end.

(** What the opening marker [opening] generates. *)
Definition generated (opening : string) : list string :=
  match parse_directive opening 0 with
  | Ok (Some d) => fst (contents d)
  | _ => []
  end.

Definition block_output (clean : bool) (b : Block) : list string :=
  match b with
  | Text l => [l]
  | Pair opening _ closing =>
      opening :: (if clean then [] else generated opening) ++ [closing]
  end.

(** An ordinary line; or a marker line that parses as an opening directive
    whose contents can be generated, ordinary lines, and a marker line that
    parses as a closing directive. *)
Definition block_ok (b : Block) : bool :=
  match b with
  | Text l => is_plain l
  | Pair opening between closing =>
      match parse_directive opening 0 with
      | Ok (Some d) =>
          match type d, snd (contents d) with
          | OPENING, Ok _ => true
          | _, _ => false
          end
      | _ => false
      end
      && forallb is_plain between
      && match parse_directive closing 0 with
         | Ok (Some d) => match type d with CLOSING => true | OPENING => false end
         | _ => false
         end
  end.

End Inliner.

(** The engine on the reference tokenizer and the small file system. *)
Definition demo_parse := parse_directive (W := demo_world).
Definition demo_run := result_generator (W := demo_world).
Definition demo_scan := for_lines (W := demo_world).
Definition demo_check := check (W := demo_world).
Definition demo_contents := contents (W := demo_world).
Definition demo_new := InlineDirective_new (W := demo_world).

(** Scenario A with an old line between the markers, as blocks. *)
Definition demo_blocks : list Block :=
  [Text (nl "head"); Pair opening_f [nl "old"] closing_inline; Text (nl "tail")].

Section Properties.

Context {W : World}.

(** ** Properties *)

(** *** The generator monad *)

Lemma gbind_Ok {A B} (out : list string) (a : A) (k : A -> Gen B) :
  gbind (out, Ok a) k = (out ++ fst (k a), snd (k a)).
Proof. simpl. destruct (k a); reflexivity. Qed.

Lemma gbind_Raise {A B} (out : list string) (e : PyError) (k : A -> Gen B) :
  gbind (out, Raise e) k = (out, Raise e).
Proof. reflexivity. Qed.

Lemma gbind_assoc {A B C} (m : Gen A) (k : A -> Gen B) (h : B -> Gen C) :
  gbind (gbind m k) h = gbind m (fun a => gbind (k a) h).
Proof.
  destruct m as [out [a|e]]; simpl; [|reflexivity].
  destruct (k a) as [out' [b|e]]; simpl; [|reflexivity].
  destruct (h b) as [out'' r]. now rewrite app_assoc.
Qed.

Lemma gbind_gret_r {A} (m : Gen A) : gbind m gret = m.
Proof.
  destruct m as [out [a|e]]; simpl; [|reflexivity]. now rewrite app_nil_r.
Qed.

Lemma gbind_ext {A B} (m : Gen A) (k k' : A -> Gen B) :
  (forall a, k a = k' a) -> gbind m k = gbind m k'.
Proof.
  intros H. destruct m as [out [a|e]]; simpl; [|reflexivity]. now rewrite H.
Qed.

Lemma gbind_inv_Ok {A B} (m : Gen A) (k : A -> Gen B) out b :
  gbind m k = (out, Ok b) ->
  exists o1 a o2, m = (o1, Ok a) /\ k a = (o2, Ok b) /\ out = o1 ++ o2.
Proof.
  destruct m as [o1 [a|e]]; simpl; [|discriminate].
  destruct (k a) as [o2 r] eqn:K. intros H. injection H as <- ->.
  now exists o1, a, o2.
Qed.

(** *** The loop over the input lines *)

Lemma for_lines_app clean current n l1 l2 :
  for_lines clean current n (l1 ++ l2) =
  gbind (for_lines clean current n l1)
        (fun current' => for_lines clean current' (n + length l1) l2).
Proof.
  revert current n. induction l1 as [|l l1 IH]; intros current n.
  - simpl. rewrite Nat.add_0_r. destruct (for_lines clean current n l2).
    reflexivity.
  - cbn [app for_lines length]. rewrite gbind_assoc.
    apply gbind_ext. intros current'.
    replace (n + S (length l1)) with (S n + length l1) by lia.
    apply IH.
Qed.

(** *** The directive parser *)

Lemma parse_plain l n : is_plain l = true -> parse_directive l n = Ok None.
Proof.
  unfold is_plain, parse_directive. destruct (extract_line_comment l) as [t|].
  - intros H. apply andb_prop in H as [H1 H2].
    apply negb_true_iff in H1, H2. now rewrite H1, H2.
  - reflexivity.
Qed.

Lemma parse_None_plain l n : parse_directive l n = Ok None -> is_plain l = true.
Proof.
  unfold is_plain, parse_directive. destruct (extract_line_comment l) as [t|].
  - destruct (looks_like_opening t).
    + destruct (parse_opening t l n); discriminate.
    + destruct (is_closing_text t); [discriminate | reflexivity].
  - reflexivity.
Qed.

Lemma parse_None_any l n m :
  parse_directive l n = Ok None -> parse_directive l m = Ok None.
Proof. intros H. apply parse_plain. now apply parse_None_plain in H. Qed.

Lemma coerce_int_Ok l n name v z :
  coerce_int l n name v = Ok z -> forall m, coerce_int l m name v = Ok z.
Proof.
  unfold coerce_int. destruct v as [s|]; [|now intros].
  destruct (py_int s); [now intros | discriminate].
Qed.

Lemma InlineDirective_new_relabel t n l src vb lg st en d :
  InlineDirective_new t n l src vb lg st en = Ok d ->
  forall m, InlineDirective_new t m l src vb lg st en = Ok (relabel m d).
Proof.
  unfold InlineDirective_new. destruct t.
  - unfold validate_source. destruct src as [p|]; [|discriminate].
    destruct (fs p); try discriminate. cbn [rbind].
    destruct (coerce_int l n "start" st) as [z1|] eqn:E1; [|discriminate].
    destruct (coerce_int l n "end" en) as [z2|] eqn:E2; [|discriminate].
    cbn [rbind]. intros [= <-] m.
    now rewrite (coerce_int_Ok _ _ _ _ _ E1 m), (coerce_int_Ok _ _ _ _ _ E2 m).
  - now intros [= <-] m.
Qed.

Lemma InlineDirective_new_fields t n l src vb lg st en d :
  InlineDirective_new t n l src vb lg st en = Ok d ->
  type d = t /\ lineno d = n /\ line d = l.
Proof.
  unfold InlineDirective_new. destruct t.
  - destruct (validate_source l n src); [|discriminate]. cbn [rbind].
    destruct (coerce_int l n "start" st); [|discriminate].
    destruct (coerce_int l n "end" en); [|discriminate].
    cbn [rbind]. now intros [= <-].
  - now intros [= <-].
Qed.

Lemma parse_opening_relabel t l n d :
  parse_opening t l n = Ok d ->
  forall m, parse_opening t l m = Ok (relabel m d).
Proof.
  unfold parse_opening. destruct (DirectiveParser_feed t) as [p|]; [|discriminate].
  cbn [rbind]. destruct (attrs p) as [a|]; [|discriminate].
  destruct (negb (dict_contains "src" a)); [discriminate|].
  destruct (tag_is p "python").
  - apply InlineDirective_new_relabel.
  - destruct (tag_is p "inline"); [|discriminate].
    apply InlineDirective_new_relabel.
Qed.

Lemma parse_opening_fields t l n d :
  parse_opening t l n = Ok d -> type d = OPENING /\ lineno d = n /\ line d = l.
Proof.
  unfold parse_opening. destruct (DirectiveParser_feed t) as [p|]; [|discriminate].
  cbn [rbind]. destruct (attrs p) as [a|]; [|discriminate].
  destruct (negb (dict_contains "src" a)); [discriminate|].
  destruct (tag_is p "python").
  - apply InlineDirective_new_fields.
  - destruct (tag_is p "inline"); [|discriminate].
    apply InlineDirective_new_fields.
Qed.

Lemma parse_relabel l n d :
  parse_directive l n = Ok (Some d) ->
  forall m, parse_directive l m = Ok (Some (relabel m d)).
Proof.
  unfold parse_directive. destruct (extract_line_comment l) as [t|]; [|discriminate].
  destruct (looks_like_opening t).
  - destruct (parse_opening t l n) as [d'|] eqn:E; [|discriminate].
    cbn [rbind]. intros [= <-] m. now rewrite (parse_opening_relabel _ _ _ _ E m).
  - destruct (is_closing_text t); [|discriminate]. now intros [= <-] m.
Qed.

Lemma parse_fields l n d :
  parse_directive l n = Ok (Some d) -> lineno d = n /\ line d = l.
Proof.
  unfold parse_directive. destruct (extract_line_comment l) as [t|]; [|discriminate].
  destruct (looks_like_opening t).
  - destruct (parse_opening t l n) as [d'|] eqn:E; [|discriminate].
    cbn [rbind]. intros [= <-]. now apply parse_opening_fields in E.
  - destruct (is_closing_text t); [|discriminate]. now intros [= <-].
Qed.

Lemma contents_relabel m d : contents (relabel m d) = contents d.
Proof. reflexivity. Qed.

Lemma type_relabel m d : type (relabel m d) = type d.
Proof. reflexivity. Qed.

(** The fence lines are no directive lines: they start with a backtick. *)
Lemma fence_open_plain d : forallb is_plain (fence_open d) = true.
Proof. unfold fence_open. now destruct (verbatim d). Qed.

Lemma fence_close_plain d : forallb is_plain (fence_close d) = true.
Proof. unfold fence_close. now destruct (verbatim d). Qed.

(** *** One line of the loop, by what the line parses as *)

Lemma loop_body_plain clean current n l :
  parse_directive l n = Ok None ->
  loop_body clean current n l = (passed_through current l, Ok current).
Proof.
  intros H. unfold loop_body. rewrite H. now destruct current.
Qed.

Lemma loop_body_error clean current n l e :
  parse_directive l n = Raise e ->
  loop_body clean current n l = (passed_through current l, Raise e).
Proof.
  intros H. unfold loop_body. rewrite H. now destruct current.
Qed.

Lemma loop_body_closing clean current n l d :
  parse_directive l n = Ok (Some d) -> type d = CLOSING ->
  loop_body clean current n l = (passed_through current l ++ [l], Ok None).
Proof.
  intros H T. unfold loop_body. rewrite H. cbn. rewrite T. now destruct current.
Qed.

Lemma loop_body_nested clean current n l d :
  parse_directive l n = Ok (Some d) -> type d = OPENING ->
  loop_body clean (Some current) n l =
  ([], Raise (InlineError (nesting_message current) l n)).
Proof.
  intros H T. unfold loop_body. rewrite H. cbn. now rewrite T.
Qed.

Lemma loop_body_opening_clean n l d :
  parse_directive l n = Ok (Some d) -> type d = OPENING ->
  loop_body true None n l = ([l], Ok (Some d)).
Proof.
  intros H T. unfold loop_body. rewrite H. cbn. now rewrite T.
Qed.

Lemma loop_body_opening_transform n l d :
  parse_directive l n = Ok (Some d) -> type d = OPENING ->
  loop_body false None n l =
  (l :: fst (contents d),
   match snd (contents d) with Ok _ => Ok (Some d) | Raise e => Raise e end).
Proof.
  intros H T. unfold loop_body. rewrite H. cbn -[contents]. rewrite T.
  destruct (contents d) as [c [[]|e]]; cbn; [|reflexivity].
  now rewrite app_nil_r.
Qed.

Lemma loop_body_Ok_inv clean current n l o c :
  loop_body clean current n l = (o, Ok c) ->
  (parse_directive l n = Ok None /\ c = current /\ o = passed_through current l)
  \/ (exists d, parse_directive l n = Ok (Some d) /\ type d = CLOSING
                /\ c = None /\ o = passed_through current l ++ [l])
  \/ (exists d, parse_directive l n = Ok (Some d) /\ type d = OPENING
                /\ current = None /\ c = Some d
                /\ o = l :: (if clean then [] else fst (contents d))
                /\ (clean = false -> snd (contents d) = Ok tt)).
Proof.
  destruct (parse_directive l n) as [[d|]|e] eqn:P.
  - destruct (type d) eqn:T.
    + destruct current as [cur|].
      * rewrite (loop_body_nested _ _ _ _ _ P T). discriminate.
      * destruct clean.
        -- rewrite (loop_body_opening_clean _ _ _ P T). intros [= <- <-].
           right; right. exists d. repeat split; auto. discriminate.
        -- rewrite (loop_body_opening_transform _ _ _ P T).
           destruct (contents d) as [body [[]|e]] eqn:C; cbn [fst snd];
             [|discriminate].
           intros [= <- <-]. right; right. exists d. rewrite C.
           repeat split; auto.
    + rewrite (loop_body_closing _ _ _ _ _ P T). intros [= <- <-].
      right; left. exists d. auto.
  - rewrite (loop_body_plain _ _ _ _ P). intros [= <- <-]. left. auto.
  - rewrite (loop_body_error _ _ _ _ _ P). discriminate.
Qed.

(** The directive a scan ends with is the one it started with, or it was
    opened by one of the lines: [lineno] and [line] are that line's. *)
Lemma open_directive_origin clean lines :
  forall current n out d,
    for_lines clean current n lines = (out, Ok (Some d)) ->
    current = Some d
    \/ (exists i, nth_error lines i = Some (line d) /\ lineno d = n + i
                  /\ parse_directive (line d) (lineno d) = Ok (Some d)
                  /\ type d = OPENING).
Proof.
  induction lines as [|l rest IH]; intros current n out d H.
  - injection H as _ ->. now left.
  - cbn [for_lines] in H. apply gbind_inv_Ok in H as (o1 & c1 & o2 & B & R & ->).
    apply IH in R as [->|(i & N & L & P & T)].
    + apply loop_body_Ok_inv in B
        as [(P & E & _)|[(d' & P & T & E & _)|(d' & P & T & _ & E & _)]].
      * now left.
      * discriminate.
      * injection E as <-. right. exists 0.
        destruct (parse_fields _ _ _ P) as [Ln Ll].
        rewrite Ll, Ln, Nat.add_0_r. repeat split; auto.
    + right. exists (S i). repeat split; auto. lia.
Qed.

Lemma open_directive_origin_idle clean lines out d :
  for_lines clean None 1 lines = (out, Ok (Some d)) ->
  1 <= lineno d <= length lines
  /\ nth_error lines (lineno d - 1) = Some (line d)
  /\ parse_directive (line d) (lineno d) = Ok (Some d)
  /\ type d = OPENING.
Proof.
  intros H. apply open_directive_origin in H as [H|(i & N & L & P & T)];
    [discriminate|].
  assert (i < length lines) by (apply nth_error_Some; congruence).
  replace (lineno d - 1) with i by lia. repeat split; auto; lia.
Qed.

(** A closing directive met while idle goes to the output twice: once by
    the first statement of the loop body, once by the closing branch. *)
Lemma idle_closing_yielded_twice clean pre l post out d :
  for_lines clean None 1 pre = (out, Ok None) ->
  parse_directive l (S (length pre)) = Ok (Some d) -> type d = CLOSING ->
  for_lines clean None 1 (pre ++ l :: post) =
  gbind (out ++ [l; l], Ok None)
        (fun current => for_lines clean current (S (S (length pre))) post).
Proof.
  intros H P T. rewrite for_lines_app, H. cbn [for_lines].
  rewrite gbind_Ok. cbn [Nat.add]. rewrite (loop_body_closing _ _ _ _ _ P T).
  cbn [passed_through app]. rewrite !gbind_Ok.
  destruct (for_lines clean None (S (S (length pre))) post) as [o r].
  cbn [fst snd]. now rewrite <- app_assoc.
Qed.

(** C1, at the input of one line, a closing marker met with no directive
    open: in both modes the scan raises no error and the output holds the
    line twice, not once. *)
Theorem stray_closing_is_duplicated clean :
  result_generator [nl "<!-- </inline> -->"] clean =
  ([nl "<!-- </inline> -->"; nl "<!-- </inline> -->"], Ok tt).
Proof. now destruct clean. Qed.

(** C4: when the input ends while the directive [d] is open, the scan
    raises the directive error "Directive not closed at end of file" with
    [d]'s line text and line number, and these are the text and the
    1-based number of the input line that opened [d]; the validation pass
    raises the same error. *)
Theorem unclosed_directive_raises clean lines out d :
  for_lines clean None 1 lines = (out, Ok (Some d)) ->
  result_generator lines clean =
    (out, Raise (InlineError "Directive not closed at end of file"
                             (line d) (lineno d)))
  /\ check lines clean =
       Raise (InlineError "Directive not closed at end of file"
                          (line d) (lineno d))
  /\ 1 <= lineno d <= length lines
  /\ nth_error lines (lineno d - 1) = Some (line d)
  /\ parse_directive (line d) (lineno d) = Ok (Some d)
  /\ type d = OPENING.
Proof.
  intros H. pose proof (open_directive_origin_idle _ _ _ _ H) as O.
  unfold check, consume_iterator, result_generator. rewrite H. cbn.
  rewrite app_nil_r. auto.
Qed.

(** C5: when a line parses as an opening directive while the directive
    [d] is still open, the scan raises a directive error at that line
    whose message cites the line number of [d], the number of the input
    line that opened it. *)
Theorem nested_opening_raises clean pre l post out d d2 :
  for_lines clean None 1 pre = (out, Ok (Some d)) ->
  parse_directive l (S (length pre)) = Ok (Some d2) ->
  type d2 = OPENING ->
  result_generator (pre ++ l :: post) clean =
    (out, Raise (InlineError
                   ("New directive found while previous is still open at line "
                    +++ str_of_nat (lineno d))
                   l (S (length pre))))
  /\ 1 <= lineno d <= length pre
  /\ nth_error pre (lineno d - 1) = Some (line d)
  /\ type d = OPENING.
Proof.
  intros H P T. pose proof (open_directive_origin_idle _ _ _ _ H) as (O1 & O2 & _ & O4).
  split; [|auto].
  unfold result_generator. rewrite for_lines_app, H. cbn [for_lines].
  rewrite gbind_Ok. cbn [Nat.add].
  rewrite (loop_body_nested _ _ _ _ _ P T). cbn. now rewrite app_nil_r.
Qed.

(** *** Construction of opening directives *)

Lemma strip_prefix_spec p s rest :
  strip_prefix p s = Some rest <-> s = p +++ rest.
Proof.
  revert s. induction p as [|a p IH]; intros s; cbn.
  - split; [now intros [= ->] | now intros ->].
  - destruct s as [|b s].
    + split; discriminate.
    + destruct (Ascii.eqb_spec a b) as [->|N].
      * rewrite IH. split; [now intros -> | now intros [= ->]].
      * split; [discriminate | intros [= E _]; now destruct N].
Qed.

Lemma starts_with_spec p s :
  starts_with p s = true <-> exists rest, s = p +++ rest.
Proof.
  unfold starts_with. destruct (strip_prefix p s) as [rest|] eqn:E.
  - apply strip_prefix_spec in E. split; eauto.
  - split; [discriminate|]. intros [rest H].
    apply strip_prefix_spec in H. congruence.
Qed.

(** The parser after a feed that delivers exactly one start tag. *)
Lemma feed_single_tag text t a :
  html_feed text = ([(t, a)], None) ->
  DirectiveParser_feed text = Ok (mkDirectiveParser (Some t) (Some a)).
Proof. intros H. unfold DirectiveParser_feed. now rewrite H. Qed.

Lemma parse_opening_single_tag text l n t a src :
  html_feed text = ([(t, a)], None) ->
  t = "inline" \/ t = "python" ->
  dict_lookup "src" a = Some src ->
  parse_opening text l n =
  if String.eqb t "python" then
    InlineDirective_new OPENING n l src true (Some "python")
                        (dict_get "start" a) (dict_get "end" a)
  else
    InlineDirective_new OPENING n l src
      (dict_contains "verbatim" a || dict_contains "lang" a)
      (dict_get "lang" a) (dict_get "start" a) (dict_get "end" a).
Proof.
  intros F T S. unfold parse_opening. rewrite (feed_single_tag _ _ _ F).
  cbn [rbind attrs]. unfold dict_contains, dict_get at 1 4. rewrite S.
  cbn [negb]. unfold tag_is. cbn [tag].
  destruct T as [-> | ->]; reflexivity.
Qed.

(** The source file is looked at when the directive is constructed.
    With a path for which [exists()] returns false, or which exists and
    cannot be opened, the constructor raises a directive error carrying
    the line and its number, and so does the validation pass, in both
    modes and whatever the state, on an input whose line at that number
    is such a directive. *)
Lemma source_checked_at_construction lineno line src verbatim lang start end_ :
  fs src = Missing \/ (exists ex, fs src = Unreadable ex) ->
  (exists msg,
      InlineDirective_new OPENING lineno line (Some src) verbatim lang start end_
      = Raise (InlineError msg line lineno))
  /\ (forall clean pre post out current text t a,
         for_lines clean None 1 pre = (out, Ok current) ->
         S (length pre) = lineno ->
         extract_line_comment line = Some text ->
         looks_like_opening text = true ->
         html_feed text = ([(t, a)], None) ->
         t = "inline" \/ t = "python" ->
         dict_lookup "src" a = Some (Some src) ->
         exists msg,
           check (pre ++ line :: post) clean = Raise (InlineError msg line lineno)).
Proof.
  intros H.
  assert (V : forall vb lg st en, exists msg,
               InlineDirective_new OPENING lineno line (Some src) vb lg st en
               = Raise (InlineError msg line lineno)).
  { intros. unfold InlineDirective_new, validate_source, raise_error.
    destruct H as [-> | [ex ->]]; cbn [rbind]; eauto. }
  split; [apply V|].
  intros clean pre post out current text t a R L C O F T S.
  assert (P : exists msg, parse_directive line lineno
                          = Raise (InlineError msg line lineno)).
  { unfold parse_directive. rewrite C, O.
    rewrite (parse_opening_single_tag _ _ _ _ _ _ F T S).
    destruct (String.eqb t "python");
      [destruct (V true (Some "python") (dict_get "start" a) (dict_get "end" a))
        as [msg ->]
      |destruct (V (dict_contains "verbatim" a || dict_contains "lang" a)
                   (dict_get "lang" a) (dict_get "start" a) (dict_get "end" a))
        as [msg ->]]; cbn [rbind]; eauto. }
  destruct P as [msg P]. exists msg.
  unfold check, consume_iterator, result_generator.
  rewrite for_lines_app, R. cbn [for_lines]. rewrite gbind_Ok.
  cbn [Nat.add]. rewrite L. rewrite (loop_body_error _ _ _ _ _ P).
  reflexivity.
Qed.

(** *** Malformed markup *)

Lemma handle_all_many p t1 t2 rest :
  handle_all p (t1 :: t2 :: rest) = Raise AssertionError.
Proof. cbn. unfold handle_starttag. now destruct (tag p). Qed.

(** A tag the text leaves unfinished delivers no start tag: the parser
    keeps [attrs = None] and [dict(parser.attrs)] raises a [TypeError]. *)
Lemma unterminated_tag_raises_TypeError line lineno text :
  extract_line_comment line = Some text ->
  looks_like_opening text = true ->
  html_feed text = ([], None) ->
  parse_directive line lineno
  = Raise (TypeError "'NoneType' object is not iterable").
Proof.
  intros C O F. unfold parse_directive, parse_opening, DirectiveParser_feed.
  now rewrite C, O, F.
Qed.

(** *** Kinds of comment text *)

(** C8, amended: a comment text is treated as an opening directive
    exactly when it starts with [<inline] or [<python] followed by a
    space character; otherwise the texts [</inline>] and [</python>] are
    closing directives, and any other text is no directive. *)
Theorem directive_kinds line lineno text :
  extract_line_comment line = Some text ->
  let opening := exists rest, text = "<inline " +++ rest
                              \/ text = "<python " +++ rest in
  (opening ->
   parse_directive line lineno
   = rbind (parse_opening text line lineno) (fun d => Ok (Some d))
   /\ forall r, parse_directive line lineno = Ok r ->
                exists d, r = Some d /\ type d = OPENING)
  /\ (text = "</inline>" \/ text = "</python>" ->
      parse_directive line lineno
      = Ok (Some (mkInlineDirective CLOSING lineno line None true None None None)))
  /\ (~ opening -> text <> "</inline>" -> text <> "</python>" ->
      parse_directive line lineno = Ok None).
Proof.
  intros C opening.
  assert (L : looks_like_opening text = true <-> opening).
  { unfold looks_like_opening, opening. rewrite orb_true_iff, !starts_with_spec.
    split.
    - intros [[rest H]|[rest H]]; exists rest; auto.
    - intros [rest [H|H]]; [left|right]; now exists rest. }
  unfold parse_directive. rewrite C. repeat split.
  - apply L in H. now rewrite H.
  - apply L in H. rewrite H. intros r.
    destruct (parse_opening text line lineno) as [d|e] eqn:P; [|discriminate].
    cbn [rbind]. intros [= <-]. exists d. split; [reflexivity|].
    now apply parse_opening_fields in P.
  - intros [-> | ->]; reflexivity.
  - intros N N1 N2. destruct (looks_like_opening text) eqn:O.
    + now destruct N; apply L.
    + unfold is_closing_text.
      destruct (String.eqb_spec text "</inline>"); [contradiction|].
      destruct (String.eqb_spec text "</python>"); [contradiction|].
      reflexivity.
Qed.

(** *** Content generation *)

Lemma firstn_nth (l : list string) :
  forall k, firstn k l
            = map (fun i => nth i l EmptyString) (seq 0 (Nat.min k (length l))).
Proof.
  induction l as [|x l IH]; intros k.
  - rewrite firstn_nil, Nat.min_0_r. reflexivity.
  - destruct k as [|k]; [reflexivity|].
    cbn [firstn length Nat.min seq map nth]. f_equal.
    rewrite IH, <- seq_shift, map_map. reflexivity.
Qed.

Lemma firstn_skipn_nth (l : list string) :
  forall a k, firstn k (skipn a l)
              = map (fun i => nth i l EmptyString)
                    (seq a (Nat.min k (length l - a))).
Proof.
  induction l as [|x l IH]; intros a k.
  - rewrite skipn_nil, firstn_nil. cbn [length Nat.sub].
    rewrite Nat.min_0_r. reflexivity.
  - destruct a as [|a].
    + cbn [skipn]. rewrite Nat.sub_0_r. apply firstn_nth.
    + cbn [skipn length Nat.sub]. rewrite IH, <- seq_shift, map_map.
      reflexivity.
Qed.

(** [islice] with a start one below [S] and the stop [E] gives the lines
    numbered [S] to [min E N]. *)
Lemma islice_lines_between file S E :
  1 <= S ->
  firstn (E - (S - 1)) (skipn (S - 1) file) = lines_between file S E.
Proof.
  intros H. rewrite firstn_skipn_nth. unfold lines_between.
  replace (seq S (Nat.min E (length file) + 1 - S))
    with (map Datatypes.S (seq (S - 1) (Nat.min E (length file) + 1 - S))).
  - rewrite map_map. cbn [Nat.sub]. 
    replace (Nat.min (E - (S - 1)) (length file - (S - 1)))
      with (Nat.min E (length file) + 1 - S) by lia.
    apply map_ext. intros i. now rewrite Nat.sub_0_r.
  - rewrite seq_shift. f_equal. lia.
Qed.

Lemma skipn_lines_between file S :
  1 <= S -> skipn (S - 1) file = lines_between file S (length file).
Proof.
  intros H. rewrite <- (islice_lines_between file S (length file) H).
  symmetry. apply firstn_all2. rewrite length_skipn. lia.
Qed.

Lemma lines_between_beyond file S E :
  length file < S -> lines_between file S E = [].
Proof.
  intros H. unfold lines_between.
  replace (Nat.min E (length file) + 1 - S) with 0 by lia. reflexivity.
Qed.

(** The slice is built when both bounds are indices the platform has. *)
Lemma islice_accepts M lines a stop :
  (0 <= a <= M)%Z ->
  (forall e, stop = Some e -> (0 <= e <= M)%Z) ->
  islice M lines a stop
  = Ok match stop with
       | None => skipn (Z.to_nat a) lines
       | Some e => firstn (Z.to_nat e - Z.to_nat a) (skipn (Z.to_nat a) lines)
       end.
Proof.
  intros A E. unfold islice, ssize_range. destruct stop as [e|].
  - specialize (E e eq_refl).
    destruct (Z.eqb_spec e (-1)); [lia|].
    destruct (Z.leb_spec (- M - 1) e); [|lia].
    destruct (Z.leb_spec e M); [|lia]. cbn [andb negb orb].
    destruct (Z.leb_spec (- M - 1) a); [|lia].
    destruct (Z.leb_spec a M); [|lia]. cbn [andb].
    destruct (Z.ltb_spec a 0); [lia|].
    destruct (Z.ltb_spec e (-1)); [lia|]. reflexivity.
  - destruct (Z.leb_spec (- M - 1) a); [|lia].
    destruct (Z.leb_spec a M); [|lia]. cbn [andb orb].
    destruct (Z.ltb_spec a 0); [lia|]. reflexivity.
Qed.

(** It is refused, with a [ValueError], when a bound is negative or above
    the largest index. *)
Lemma islice_refuses M lines a stop :
  (a < 0)%Z \/ (M < a)%Z \/ (exists e, stop = Some e /\ ((e < 0)%Z \/ (M < e)%Z)) ->
  exists msg, islice M lines a stop = Raise (ValueError msg).
Proof.
  intros H. unfold islice, ssize_range.
  destruct stop as [e|].
  - destruct (Z.eqb_spec e (-1)); cbn [orb]; [eauto|].
    destruct (Z.leb_spec (- M - 1) e); cbn [andb negb]; [|eauto].
    destruct (Z.leb_spec e M); cbn [negb]; [|eauto].
    destruct (Z.leb_spec (- M - 1) a); cbn [andb].
    + destruct (Z.leb_spec a M).
      * destruct (Z.ltb_spec a 0); cbn [orb]; [eauto|].
        destruct (Z.ltb_spec e (-1)); [eauto|].
        destruct H as [H|[H|(e' & [= <-] & [H|H])]]; lia.
      * cbn. eauto.
    + cbn. eauto.
  - destruct (Z.leb_spec (- M - 1) a); cbn [andb].
    + destruct (Z.leb_spec a M).
      * destruct (Z.ltb_spec a 0); cbn [orb]; [eauto|].
        destruct H as [H|[H|(e' & [=] & _)]]; lia.
      * cbn. eauto.
    + cbn. eauto.
Qed.

(** The slice raises nothing but a [ValueError]. *)
Lemma islice_error M lines a stop e :
  islice M lines a stop = Raise e -> exists msg, e = ValueError msg.
Proof.
  unfold islice. cbv zeta.
  repeat match goal with
         | |- (if ?b then _ else _) = _ -> _ => destruct b
         end;
    try (intros [= <-]; eauto).
  destruct stop; discriminate.
Qed.

(** The contents of a directive over a readable file, by what the slice
    gives. *)
Lemma contents_readable d p file :
  source d = Some p ->
  fs p = Readable file ->
  contents d
  = match islice (Zpos sys_maxsize) file
                 match start d with Some s => (s - 1)%Z | None => 0%Z end
                 (end_ d)
    with
    | Ok body => (fence_open d ++ body ++ fence_close d, Ok tt)
    | Raise e => (fence_open d, Raise e)
    end.
Proof.
  intros Hs Hf. unfold contents, open_source. rewrite Hs, Hf.
  cbn [glift gbind gyield_from].
  destruct (islice _ _ _ _) as [body|e]; cbn; now rewrite ?app_nil_r.
Qed.

(** C3, amended: for a directive over a readable file of [N] lines whose
    bounds, where given, are positive and are indices the platform has
    ([start - 1] and [end] not above [sys.maxsize]), the generated body is
    exactly the lines [S] to [min(E,N)] of the file, counted from 1 and
    both included, [S] being 1 and [E] being [N] where absent; it is empty
    when [N < S].  The fence lines come before and after it when
    [verbatim] is set. *)
Theorem contents_bounds d src file :
  source d = Some src ->
  fs src = Readable file ->
  (forall s, start d = Some s -> (0 < s <= Zpos sys_maxsize + 1)%Z) ->
  (forall e, end_ d = Some e -> (0 < e <= Zpos sys_maxsize)%Z) ->
  let N := length file in
  let S := match start d with Some s => Z.to_nat s | None => 1 end in
  let E := match end_ d with Some e => Z.to_nat e | None => N end in
  contents d = (fence_open d ++ lines_between file S E ++ fence_close d, Ok tt)
  /\ (N < S -> contents d = (fence_open d ++ fence_close d, Ok tt)).
Proof.
  intros Hs Hf Ps Pe N S E.
  assert (S1 : 1 <= S).
  { unfold S. destruct (start d) as [s|]; [|lia]. specialize (Ps s eq_refl). lia. }
  assert (C : contents d
              = (fence_open d ++ lines_between file S E ++ fence_close d, Ok tt)).
  { rewrite (contents_readable d src file Hs Hf).
    replace (match start d with Some s => (s - 1)%Z | None => 0%Z end)
      with (Z.of_nat (S - 1)).
    2:{ unfold S. destruct (start d) as [s|]; [|reflexivity].
        specialize (Ps s eq_refl). lia. }
    rewrite islice_accepts.
    - rewrite Nat2Z.id. destruct (end_ d) as [e|] eqn:He.
      + now rewrite (islice_lines_between file S (Z.to_nat e) S1).
      + now rewrite (skipn_lines_between file S S1).
    - unfold S. destruct (start d) as [s|]; [|lia]. specialize (Ps s eq_refl). lia.
    - intros e He. specialize (Pe e He). lia. }
  split; [exact C|].
  intros H. rewrite C. now rewrite (lines_between_beyond file S E H).
Qed.

(** C10: a [start] attribute that reads as an integer not above zero
    passes construction; generating the contents of the directive then
    stops with a [ValueError] of the slicing, after the opening fence if
    there is one; a transforming scan that reaches the directive while
    idle ends with that error, the marker line and the fence being its
    last output. *)
Theorem nonpositive_start_fails_late lineno line src file verbatim lang s z e e' :
  fs src = Readable file ->
  py_int s = Some z ->
  (z <= 0)%Z ->
  coerce_int line lineno "end" e = Ok e' ->
  let d := mkInlineDirective OPENING lineno line (Some src) verbatim lang
                             (Some z) e' in
  InlineDirective_new OPENING lineno line (Some src) verbatim lang (Some s) e
  = Ok d
  /\ (exists msg, contents d = (fence_open d, Raise (ValueError msg)))
  /\ (forall pre post out,
         for_lines false None 1 pre = (out, Ok None) ->
         S (length pre) = lineno ->
         parse_directive line lineno = Ok (Some d) ->
         exists msg,
           result_generator (pre ++ line :: post) false
           = (out ++ line :: fence_open d, Raise (ValueError msg))).
Proof.
  intros Hf Hs Hz He d.
  assert (C : exists msg, contents d = (fence_open d, Raise (ValueError msg))).
  { rewrite (contents_readable d src file eq_refl Hf). cbn [start d].
    destruct (islice_refuses (Zpos sys_maxsize) file (z - 1) (end_ d)) as [msg R];
      [left; lia|].
    exists msg. now rewrite R. }
  repeat split.
  - unfold InlineDirective_new, validate_source. rewrite Hf. cbn [rbind].
    unfold coerce_int at 1. rewrite Hs. cbn [rbind]. now rewrite He.
  - exact C.
  - intros pre post out R L P. destruct C as [msg C]. exists msg.
    unfold result_generator. rewrite for_lines_app, R. cbn [for_lines].
    rewrite gbind_Ok. cbn [Nat.add]. rewrite L.
    rewrite (loop_body_opening_transform _ _ _ P eq_refl), C. reflexivity.
Qed.

(** *** Running the engine on its own output *)

Lemma for_lines_cons clean current n l rest :
  for_lines clean current n (l :: rest) =
  gbind (loop_body clean current n l)
        (fun current' => for_lines clean current' (S n) rest).
Proof. reflexivity. Qed.

(** Lines that are no directive lines are dropped while a directive is
    open. *)
Lemma for_lines_plain_open clean d body :
  forallb is_plain body = true ->
  forall n, for_lines clean (Some d) n body = ([], Ok (Some d)).
Proof.
  induction body as [|l body IH]; intros H n; [reflexivity|].
  cbn [forallb] in H. apply andb_prop in H as [Hl Hb].
  rewrite for_lines_cons, (loop_body_plain _ _ _ _ (parse_plain l n Hl)).
  cbn [passed_through]. rewrite gbind_Ok, (IH Hb). reflexivity.
Qed.

Lemma is_open_false current : is_open current = false -> current = None.
Proof. now destruct current. Qed.

Lemma is_open_true current : is_open current = true -> exists d, current = Some d.
Proof. destruct current as [d|]; [eauto | discriminate]. Qed.

(** The transforming pass over the output of a transforming pass: the
    second scan is open exactly when the first one is, and yields the
    lines it reads. *)
Lemma transform_rescan lines :
  forall current n out current',
    for_lines false current n lines = (out, Ok current') ->
    idle_close_free (is_open current) n lines = true ->
    bodies_plain n lines = true ->
    forall m again, is_open again = is_open current ->
      exists again',
        for_lines false again m out = (out, Ok again')
        /\ is_open again' = is_open current'.
Proof.
  induction lines as [|l rest IH]; intros current n out current' H F B m again O.
  - injection H as <- <-. exists again. auto.
  - rewrite for_lines_cons in H.
    apply gbind_inv_Ok in H as (o1 & c1 & o2 & L & R & ->).
    cbn [idle_close_free bodies_plain] in F, B.
    apply loop_body_Ok_inv in L
      as [(P & -> & ->)|[(d & P & T & -> & ->)|(d & P & T & -> & -> & -> & C)]];
      rewrite P in F, B; try rewrite T in F, B.
    + (* an ordinary line *)
      cbn [andb] in B. destruct current as [cur|]; cbn [passed_through app].
      * exact (IH _ _ _ _ R F B m again O).
      * apply is_open_false in O as ->.
        destruct (IH _ _ _ _ R F B (S m) None eq_refl) as (again' & R' & O').
        exists again'. split; [|exact O'].
        rewrite for_lines_cons, (loop_body_plain _ _ _ _ (parse_None_any _ _ m P)).
        cbn [passed_through]. now rewrite gbind_Ok, R'.
    + (* a closing directive: a directive is open *)
      apply andb_prop in F as [Oc F]. cbn [andb] in B.
      apply is_open_true in Oc as [cur ->]. cbn [passed_through app].
      cbn [is_open] in O. apply is_open_true in O as [cur' ->].
      destruct (IH _ _ _ _ R F B (S m) None eq_refl) as (again' & R' & O').
      exists again'. split; [|exact O'].
      rewrite for_lines_cons.
      rewrite (loop_body_closing _ _ _ _ _ (parse_relabel _ _ _ P m) T).
      cbn [passed_through app]. now rewrite gbind_Ok, R'.
    + (* an opening directive, met while idle *)
      apply andb_prop in B as [Bd B]. specialize (C eq_refl).
      apply is_open_false in O as ->.
      destruct (IH _ _ _ _ R F B (S m + length (fst (contents d)))
                   (Some (relabel m d)) eq_refl) as (again' & R' & O').
      exists again'. split; [|exact O'].
      cbn [app]. rewrite for_lines_cons.
      rewrite (loop_body_opening_transform _ _ _ (parse_relabel _ _ _ P m) T).
      rewrite contents_relabel, C, gbind_Ok, for_lines_app.
      rewrite (for_lines_plain_open _ _ _ Bd), gbind_Ok, R'. reflexivity.
Qed.

(** C2, amended: when the transforming pass succeeds on an input in
    which no closing directive is met while idle, and no line generated
    for its directives is itself a directive line, the transforming pass
    over its output succeeds with the same output. *)
Theorem transform_idempotent lines out :
  result_generator lines false = (out, Ok tt) ->
  idle_close_free false 1 lines = true ->
  bodies_plain 1 lines = true ->
  result_generator out false = (out, Ok tt).
Proof.
  unfold result_generator. intros H F B.
  apply gbind_inv_Ok in H as (o1 & c & o2 & R & E & ->).
  destruct c as [d|]; [discriminate|]. injection E as <-.
  rewrite app_nil_r.
  destruct (transform_rescan _ _ _ _ _ R F B 1 None eq_refl) as (again & R' & O).
  apply is_open_false in O as ->. rewrite R'. cbn. now rewrite app_nil_r.
Qed.

(** The cleaning pass followed by the transforming pass. *)
Lemma clean_rescan lines :
  forall current n out current',
    for_lines false current n lines = (out, Ok current') ->
    idle_close_free (is_open current) n lines = true ->
    exists cleaned,
      for_lines true current n lines = (cleaned, Ok current')
      /\ forall m again, is_open again = is_open current ->
           exists again',
             for_lines false again m cleaned = (out, Ok again')
             /\ is_open again' = is_open current'.
Proof.
  induction lines as [|l rest IH]; intros current n out current' H F.
  - injection H as <- <-. exists []. split; [reflexivity|].
    intros m again O. exists again. auto.
  - rewrite for_lines_cons in H.
    apply gbind_inv_Ok in H as (o1 & c1 & o2 & L & R & ->).
    cbn [idle_close_free] in F.
    apply loop_body_Ok_inv in L
      as [(P & -> & ->)|[(d & P & T & -> & ->)|(d & P & T & -> & -> & -> & C)]];
      rewrite P in F; try rewrite T in F.
    + destruct (IH _ _ _ _ R F) as (cleaned & Rc & Rt).
      exists (passed_through current l ++ cleaned). split.
      * now rewrite for_lines_cons, (loop_body_plain _ _ _ _ P), gbind_Ok, Rc.
      * intros m again O. destruct current as [cur|]; cbn [passed_through app].
        -- exact (Rt m again O).
        -- apply is_open_false in O as ->.
           destruct (Rt (S m) None eq_refl) as (again' & R' & O').
           exists again'. split; [|exact O'].
           rewrite for_lines_cons,
             (loop_body_plain _ _ _ _ (parse_None_any _ _ m P)).
           cbn [passed_through]. now rewrite gbind_Ok, R'.
    + apply andb_prop in F as [Oc F]. apply is_open_true in Oc as [cur ->].
      destruct (IH _ _ _ _ R F) as (cleaned & Rc & Rt).
      exists (l :: cleaned). split.
      * now rewrite for_lines_cons, (loop_body_closing _ _ _ _ _ P T), gbind_Ok, Rc.
      * intros m again O. cbn [is_open] in O. apply is_open_true in O as [cur' ->].
        destruct (Rt (S m) None eq_refl) as (again' & R' & O').
        exists again'. split; [|exact O'].
        rewrite for_lines_cons.
        rewrite (loop_body_closing _ _ _ _ _ (parse_relabel _ _ _ P m) T).
        cbn [passed_through app]. now rewrite gbind_Ok, R'.
    + specialize (C eq_refl). destruct (IH _ _ _ _ R F) as (cleaned & Rc & Rt).
      exists (l :: cleaned). split.
      * now rewrite for_lines_cons, (loop_body_opening_clean _ _ _ P T), gbind_Ok, Rc.
      * intros m again O. apply is_open_false in O as ->.
        destruct (Rt (S m) (Some (relabel m d)) eq_refl) as (again' & R' & O').
        exists again'. split; [|exact O'].
        rewrite for_lines_cons.
        rewrite (loop_body_opening_transform _ _ _ (parse_relabel _ _ _ P m) T).
        rewrite contents_relabel, C, gbind_Ok, R'. reflexivity.
Qed.

(** X18: cleaning and then transforming gives what transforming gives, on
    an input in which no closing directive is met while idle. *)
Lemma cleaning_then_transforming lines out :
  result_generator lines false = (out, Ok tt) ->
  idle_close_free false 1 lines = true ->
  exists cleaned,
    result_generator lines true = (cleaned, Ok tt)
    /\ result_generator cleaned false = (out, Ok tt).
Proof.
  unfold result_generator. intros H F.
  apply gbind_inv_Ok in H as (o1 & c & o2 & R & E & ->).
  destruct c as [d|]; [discriminate|]. injection E as <-.
  destruct (clean_rescan _ _ _ _ _ R F) as (cleaned & Rc & Rt).
  destruct (Rt 1 None eq_refl) as (again & R' & O).
  apply is_open_false in O as ->.
  exists cleaned. rewrite Rc, R'. cbn. now rewrite !app_nil_r.
Qed.

(** C9, at the input of one line, a closing marker: transforming gives
    the line twice; cleaning gives it twice, and transforming the cleaned
    lines gives it four times. *)
Theorem clean_then_transform_on_stray_closing :
  let stray := nl "<!-- </inline> -->" in
  result_generator [stray] false = ([stray; stray], Ok tt)
  /\ result_generator [stray] true = ([stray; stray], Ok tt)
  /\ result_generator [stray; stray] false
     = ([stray; stray; stray; stray], Ok tt).
Proof. repeat split. Qed.

(** An opening directive met while idle and followed by ordinary lines
    only: the scan ends with the directive open, and the error cites the
    marker line and its number. *)
Lemma unclosed_after_opening clean pre l post out d :
  for_lines clean None 1 pre = (out, Ok None) ->
  parse_directive l (S (length pre)) = Ok (Some d) ->
  type d = OPENING ->
  (clean = false -> snd (contents d) = Ok tt) ->
  forallb is_plain post = true ->
  result_generator (pre ++ l :: post) clean
  = (out ++ l :: (if clean then [] else fst (contents d)),
     Raise (InlineError "Directive not closed at end of file" l (S (length pre)))).
Proof.
  intros R P T C Hp. destruct (parse_fields _ _ _ P) as [Ln Ll].
  unfold result_generator. rewrite for_lines_app, R, gbind_Ok.
  cbn [Nat.add]. rewrite for_lines_cons. destruct clean.
  - rewrite (loop_body_opening_clean _ _ _ P T), gbind_Ok.
    rewrite (for_lines_plain_open _ _ _ Hp). cbn.
    now rewrite Ln, Ll, !app_nil_r.
  - rewrite (loop_body_opening_transform _ _ _ P T), (C eq_refl), gbind_Ok.
    rewrite (for_lines_plain_open _ _ _ Hp). cbn -[contents].
    now rewrite Ln, Ll, !app_nil_r.
Qed.

(** *** The comment-line extractor *)

Lemma append_assoc (a b c : string) : (a +++ b) +++ c = a +++ b +++ c.
Proof. induction a as [|x a IH]; cbn; [reflexivity | now rewrite IH]. Qed.

Lemma skip_spaces_split s :
  exists ws, s = ws +++ skip_spaces s /\ all_space ws = true.
Proof.
  induction s as [|c s (ws & E & A)]; cbn.
  - now exists EmptyString.
  - destruct (is_space c) eqn:C.
    + exists (String c ws). cbn. rewrite C, A. now rewrite <- E.
    + now exists EmptyString.
Qed.

Lemma skip_spaces_starts s : starts_with_space (skip_spaces s) = false.
Proof.
  induction s as [|c s IH]; cbn; [reflexivity|].
  destruct (is_space c) eqn:C; [exact IH | cbn; exact C].
Qed.

Lemma skip_spaces_all_space ws s :
  all_space ws = true -> skip_spaces (ws +++ s) = skip_spaces s.
Proof.
  induction ws as [|c ws IH]; cbn; [reflexivity|].
  intros H. apply andb_prop in H as [C A]. now rewrite C, IH.
Qed.

Lemma skip_spaces_id s : starts_with_space s = false -> skip_spaces s = s.
Proof. destruct s as [|c s]; cbn; [reflexivity | now intros ->]. Qed.

Lemma closes_here_spec s :
  closes_here s = true ->
  exists ws tail, s = ws +++ "-->" +++ tail /\ all_space ws = true.
Proof.
  unfold closes_here. intros H. apply starts_with_spec in H as [tail H].
  destruct (skip_spaces_split s) as (ws & E & A).
  exists ws, tail. now rewrite <- H.
Qed.

Lemma lazy_group_unfold s :
  lazy_group s =
  if closes_here s then Some EmptyString
  else match s with
       | EmptyString => None
       | String c s' =>
           if Ascii.eqb c (ascii_of_nat 10) then None
           else option_map (String c) (lazy_group s')
       end.
Proof. now destruct s. Qed.

Lemma lazy_group_empty s : lazy_group s = Some EmptyString -> closes_here s = true.
Proof.
  rewrite lazy_group_unfold. destruct (closes_here s); [reflexivity|].
  destruct s as [|c s]; [discriminate|].
  destruct (Ascii.eqb c (ascii_of_nat 10)); [discriminate|].
  destruct (lazy_group s); discriminate.
Qed.

Lemma lazy_group_sound s :
  forall t, lazy_group s = Some t ->
    (exists ws tail, s = t +++ ws +++ "-->" +++ tail /\ all_space ws = true)
    /\ has_line_feed t = false
    /\ ends_with_space t = false.
Proof.
  induction s as [|c s IH]; intros t; rewrite lazy_group_unfold.
  - destruct (closes_here EmptyString) eqn:C; [|discriminate].
    intros [= <-]. split; [|auto]. now apply closes_here_spec.
  - destruct (closes_here (String c s)) eqn:C.
    + intros [= <-]. split; [|auto]. now apply closes_here_spec.
    + destruct (Ascii.eqb c (ascii_of_nat 10)) eqn:N; [discriminate|].
      destruct (lazy_group s) as [t'|] eqn:L; [|discriminate].
      intros [= <-]. destruct (IH t' eq_refl) as ((ws & tail & E & A) & F & S).
      split; [|split].
      * exists ws, tail. split; [|exact A]. cbn [String.append]. f_equal. exact E.
      * cbn [has_line_feed]. now rewrite N.
      * destruct t' as [|c' t']; [|exact S].
        cbn. destruct (is_space c) eqn:Sc; [|reflexivity].
        apply lazy_group_empty in L. unfold closes_here in C, L. cbn in C.
        rewrite Sc in C. congruence.
Qed.

Lemma lazy_group_prefix s t c t' :
  lazy_group s = Some t -> t = String c t' -> exists s', s = String c s'.
Proof.
  intros L ->. apply lazy_group_sound in L as ((ws & tail & E & _) & _).
  rewrite E. cbn. eauto.
Qed.

(** X1: when a line is a comment line, it reads: white space, [<!--],
    white space, the extracted text, white space, [-->], anything; the
    text holds no line feed and has no white space at either end. *)
Theorem extract_line_comment_sound line text :
  extract_line_comment line = Some text ->
  (exists ws1 ws2 ws3 tail,
      line = ws1 +++ "<!--" +++ ws2 +++ text +++ ws3 +++ "-->" +++ tail
      /\ all_space ws1 = true /\ all_space ws2 = true /\ all_space ws3 = true)
  /\ has_line_feed text = false
  /\ starts_with_space text = false
  /\ ends_with_space text = false.
Proof.
  unfold extract_line_comment, COMMENT_RE_match.
  destruct (strip_prefix "<!--" (skip_spaces line)) as [rest|] eqn:P;
    [|discriminate].
  destruct (lazy_group (skip_spaces rest)) as [t|] eqn:L; [|discriminate].
  intros [= <-]. apply strip_prefix_spec in P.
  destruct (skip_spaces_split line) as (ws1 & E1 & A1).
  destruct (skip_spaces_split rest) as (ws2 & E2 & A2).
  pose proof (lazy_group_sound _ _ L) as ((ws3 & tail & E3 & A3) & F & S).
  split; [|split; [exact F | split; [|exact S]]].
  - exists ws1, ws2, ws3, tail. repeat split; auto.
    rewrite E1 at 1. rewrite P. rewrite E2 at 1. now rewrite E3 at 1.
  - destruct t as [|c t']; [reflexivity|].
    destruct (lazy_group_prefix _ _ _ _ L eq_refl) as [s' Es].
    pose proof (skip_spaces_starts rest) as Hs. rewrite Es in Hs. exact Hs.
Qed.

Lemma starts_with_close_append r x :
  starts_with "-->" (r +++ x) = true ->
  starts_with "-->" r = true
  \/ (r = EmptyString /\ starts_with "-->" x = true)
  \/ (r = "-" /\ starts_with "->" x = true)
  \/ (r = "--" /\ starts_with ">" x = true).
Proof.
  unfold starts_with.
  destruct r as [|c1 [|c2 [|c3 r]]]; cbn [String.append strip_prefix].
  - auto.
  - destruct (Ascii.eqb_spec "-" c1) as [<-|]; [|discriminate]. auto.
  - destruct (Ascii.eqb_spec "-" c1) as [<-|]; [|discriminate].
    destruct (Ascii.eqb_spec "-" c2) as [<-|]; [|discriminate]. auto 6.
  - destruct (Ascii.eqb "-" c1); [|discriminate].
    destruct (Ascii.eqb "-" c2); [|discriminate].
    destruct (Ascii.eqb ">" c3); [auto | discriminate].
Qed.

(** After white space and the closing marker, neither [->] nor [>] comes
    first. *)
Lemma marker_tail_first ws tail :
  all_space ws = true ->
  starts_with "->" (ws +++ "-->" +++ tail) = false
  /\ starts_with ">" (ws +++ "-->" +++ tail) = false.
Proof.
  destruct ws as [|c ws]; [now split|]. cbn [all_space].
  intros H. apply andb_prop in H as [C _]. unfold starts_with.
  cbn [String.append strip_prefix].
  destruct (Ascii.eqb_spec "-" c) as [<-|]; [discriminate C|].
  destruct (Ascii.eqb_spec ">" c) as [<-|]; [discriminate C|]. now split.
Qed.

Lemma suffix_does_not_close r ws tail :
  r <> EmptyString ->
  has_close_marker r = false ->
  ends_with_space r = false ->
  all_space ws = true ->
  closes_here (r +++ ws +++ "-->" +++ tail) = false.
Proof.
  intros N H E A. induction r as [|c r IH]; [congruence|].
  cbn [has_close_marker] in H. apply orb_false_elim in H as [H1 H2].
  unfold closes_here. cbn [String.append skip_spaces].
  destruct (is_space c) eqn:C.
  - destruct r as [|c' r]; [cbn in E; congruence|].
    apply IH; [discriminate | exact H2 | exact E].
  - apply not_true_is_false. intros S.
    destruct (marker_tail_first ws tail A) as [M1 M2].
    apply (starts_with_close_append (String c r) (ws +++ "-->" +++ tail)) in S
      as [S|[[S _]|[[_ S]|[_ S]]]]; congruence.
Qed.

Lemma lazy_group_complete t rest :
  has_line_feed t = false ->
  has_close_marker t = false ->
  ends_with_space t = false ->
  (exists ws tail, rest = ws +++ "-->" +++ tail /\ all_space ws = true) ->
  lazy_group (t +++ rest) = Some t.
Proof.
  intros F H E (ws & tail & R & A). induction t as [|c t IH].
  - rewrite lazy_group_unfold. unfold closes_here. cbn [String.append].
    rewrite R, (skip_spaces_all_space _ _ A). reflexivity.
  - rewrite lazy_group_unfold.
    assert (C : closes_here (String c t +++ rest) = false).
    { rewrite R. apply suffix_does_not_close; auto. discriminate. }
    rewrite C. cbn [String.append]. cbn [has_line_feed] in F.
    apply orb_false_elim in F as [F1 F2]. rewrite F1.
    cbn [has_close_marker] in H. apply orb_false_elim in H as [_ H2].
    rewrite IH; auto. destruct t; [reflexivity | exact E].
Qed.

(** X2: a text without line feed, without white space at either end and
    without [-->] inside, put between the comment markers with any white
    space around it and anything after the closing marker, is extracted
    as it is. *)
Theorem extract_line_comment_complete ws1 ws2 ws3 text tail :
  all_space ws1 = true -> all_space ws2 = true -> all_space ws3 = true ->
  has_line_feed text = false ->
  has_close_marker text = false ->
  starts_with_space text = false ->
  ends_with_space text = false ->
  extract_line_comment (ws1 +++ "<!--" +++ ws2 +++ text +++ ws3 +++ "-->" +++ tail)
  = Some text.
Proof.
  intros A1 A2 A3 F H S E. unfold extract_line_comment, COMMENT_RE_match.
  rewrite (skip_spaces_all_space _ _ A1).
  remember (text +++ ws3 +++ "-->" +++ tail) as body eqn:B.
  rewrite (skip_spaces_id ("<!--" +++ ws2 +++ body) eq_refl).
  rewrite (proj2 (strip_prefix_spec "<!--" _ (ws2 +++ body)) eq_refl).
  rewrite (skip_spaces_all_space _ _ A2). subst body.
  destruct text as [|c text].
  - cbn [String.append]. rewrite (skip_spaces_all_space _ _ A3).
    reflexivity.
  - rewrite (skip_spaces_id (String c text +++ ws3 +++ "-->" +++ tail) S).
    rewrite (lazy_group_complete (String c text) (ws3 +++ "-->" +++ tail));
      eauto.
Qed.

(** *** Construction and parsing: outcomes *)

Lemma coerce_int_error l n name v e :
  coerce_int l n name v = Raise e ->
  exists s, v = Some s /\ py_int s = None
            /\ e = InlineError ("Invalid value " +++ s +++ " for " +++ name
                                +++ " attribute") l n.
Proof.
  unfold coerce_int, raise_error. destruct v as [s|]; [|discriminate].
  destruct (py_int s) eqn:P; [discriminate|]. intros [= <-]. eauto.
Qed.

Lemma validate_source_error l n src e :
  validate_source l n src = Raise e ->
  (exists msg, e = InlineError msg l n)
  \/ (exists p ex, src = Some p /\ fs p = Inaccessible ex /\ e = OSError ex).
Proof.
  unfold validate_source, raise_error. destruct src as [p|].
  - destruct (fs p) eqn:F; intros [= <-]; eauto 6.
  - intros [= <-]; eauto.
Qed.

Lemma validate_source_Ok l n src p :
  validate_source l n src = Ok p <->
  src = Some p /\ exists file, fs p = Readable file.
Proof.
  unfold validate_source, raise_error. split.
  - destruct src as [q|]; [|discriminate].
    destruct (fs q) eqn:F; try discriminate. intros [= <-]. eauto.
  - intros (-> & file & F). now rewrite F.
Qed.

Lemma InlineDirective_new_Ok_inv n l src vb lg st en d :
  InlineDirective_new OPENING n l src vb lg st en = Ok d ->
  exists p file,
    src = Some p /\ fs p = Readable file
    /\ coerce_int l n "start" st = Ok (start d)
    /\ coerce_int l n "end" en = Ok (end_ d)
    /\ d = mkInlineDirective OPENING n l (Some p) vb lg (start d) (end_ d).
Proof.
  unfold InlineDirective_new.
  destruct (validate_source l n src) as [p|] eqn:V; [|discriminate].
  apply validate_source_Ok in V as (-> & file & F). cbn [rbind].
  destruct (coerce_int l n "start" st) as [z1|]; [|discriminate].
  destruct (coerce_int l n "end" en) as [z2|]; [|discriminate].
  cbn [rbind]. intros [= <-]. exists p, file. auto.
Qed.

Lemma InlineDirective_new_error n l src vb lg st en e :
  InlineDirective_new OPENING n l src vb lg st en = Raise e ->
  (exists msg, e = InlineError msg l n)
  \/ (exists p ex, src = Some p /\ fs p = Inaccessible ex /\ e = OSError ex).
Proof.
  unfold InlineDirective_new.
  destruct (validate_source l n src) as [p|] eqn:V.
  - cbn [rbind]. destruct (coerce_int l n "start" st) as [z1|] eqn:C1.
    + destruct (coerce_int l n "end" en) as [z2|] eqn:C2; [discriminate|].
      cbn [rbind]. intros [= <-].
      apply coerce_int_error in C2 as (s & _ & _ & ->). eauto.
    + cbn [rbind]. intros [= <-].
      apply coerce_int_error in C1 as (s & _ & _ & ->). eauto.
  - cbn [rbind]. intros [= <-]. now apply validate_source_error in V.
Qed.

(** X3: constructing an opening directive succeeds exactly when the
    source names a readable file and [start] and [end], where given, read
    as integers; the directive then holds what it was given, the bounds as
    integers.  A failure is a directive error carrying the line and the
    line number given to the constructor, except when [exists()] itself
    raises on the source path: that [OSError] leaves the constructor as it
    is. *)
Theorem construction_outcome lineno line src verbatim lang start_attr end_attr :
  (forall d,
      InlineDirective_new OPENING lineno line src verbatim lang start_attr end_attr = Ok d
      <-> exists p file,
          src = Some p /\ fs p = Readable file
          /\ coerce_int line lineno "start" start_attr = Ok (start d)
          /\ coerce_int line lineno "end" end_attr = Ok (end_ d)
          /\ d = mkInlineDirective OPENING lineno line (Some p) verbatim lang
                                   (start d) (end_ d))
  /\ (forall e,
         InlineDirective_new OPENING lineno line src verbatim lang start_attr end_attr
         = Raise e ->
         (exists msg, e = InlineError msg line lineno)
         \/ (exists p ex,
                src = Some p /\ fs p = Inaccessible ex /\ e = OSError ex))
  /\ (forall p ex, src = Some p -> fs p = Inaccessible ex ->
      InlineDirective_new OPENING lineno line src verbatim lang start_attr end_attr
      = Raise (OSError ex)).
Proof.
  split.
  - intros d. split; [apply InlineDirective_new_Ok_inv|].
    intros (p & file & -> & F & C1 & C2 & D). unfold InlineDirective_new.
    rewrite (proj2 (validate_source_Ok line lineno (Some p) p)) by eauto.
    cbn [rbind]. rewrite C1, C2. cbn [rbind]. now rewrite D at 3.
  - split; [apply InlineDirective_new_error|].
    intros p ex -> F. unfold InlineDirective_new, validate_source. now rewrite F.
Qed.

(** X4: the constructor checks the source first, then [start], then
    [end], and reports the first failure only: a source that is absent, not
    found or not openable is reported whatever the bounds are; a [start]
    that is no integer is reported whatever [end] is; an [end] that is no
    integer is reported when source and [start] are in order. *)
Theorem validation_precedence lineno line src verbatim lang start_attr end_attr :
  (src = None ->
   InlineDirective_new OPENING lineno line src verbatim lang start_attr end_attr
   = Raise (InlineError "Source attribute must be present in directive"
                        line lineno))
  /\ (forall p, src = Some p -> fs p = Missing ->
      InlineDirective_new OPENING lineno line src verbatim lang start_attr end_attr
      = Raise (InlineError ("File " +++ path_str p +++ " not found") line lineno))
  /\ (forall p ex, src = Some p -> fs p = Unreadable ex ->
      InlineDirective_new OPENING lineno line src verbatim lang start_attr end_attr
      = Raise (InlineError ex line lineno))
  /\ (forall p file s, src = Some p -> fs p = Readable file ->
      start_attr = Some s -> py_int s = None ->
      InlineDirective_new OPENING lineno line src verbatim lang start_attr end_attr
      = Raise (InlineError ("Invalid value " +++ s +++ " for start attribute")
                           line lineno))
  /\ (forall p file z s, src = Some p -> fs p = Readable file ->
      coerce_int line lineno "start" start_attr = Ok z ->
      end_attr = Some s -> py_int s = None ->
      InlineDirective_new OPENING lineno line src verbatim lang start_attr end_attr
      = Raise (InlineError ("Invalid value " +++ s +++ " for end attribute")
                           line lineno)).
Proof.
  unfold InlineDirective_new, validate_source, raise_error.
  split; [|split; [|split; [|split]]].
  - now intros ->.
  - intros p -> F. now rewrite F.
  - intros p ex -> F. now rewrite F.
  - intros p file s -> F -> P. rewrite F. cbn [rbind].
    unfold coerce_int at 1. now rewrite P.
  - intros p file z s -> F C -> P. rewrite F. cbn [rbind]. rewrite C.
    cbn [rbind]. unfold coerce_int. now rewrite P.
Qed.

(** *** The parser: where errors point and what a directive holds *)

Lemma handle_all_error events :
  forall p e, handle_all p events = Raise e -> e = AssertionError.
Proof.
  induction events as [|t events IH]; intros p e; cbn; [discriminate|].
  unfold handle_starttag. destruct (tag p); cbn [rbind].
  - now intros [= <-].
  - apply IH.
Qed.

Lemma feed_error text e :
  DirectiveParser_feed text = Raise e -> is_InlineError e = false.
Proof.
  unfold DirectiveParser_feed. destruct (html_feed text) as [events stop].
  destruct (handle_all DirectiveParser_init events) as [p|e'] eqn:H; cbn [rbind].
  - destruct stop as [[message|class_name message]|]; [| |discriminate];
      now intros [= <-].
  - intros [= <-]. now rewrite (handle_all_error _ _ _ H).
Qed.

Lemma parse_opening_error_location text l n msg l' n' :
  parse_opening text l n = Raise (InlineError msg l' n') -> l' = l /\ n' = n.
Proof.
  unfold parse_opening.
  destruct (DirectiveParser_feed text) as [p|e] eqn:F.
  - cbn [rbind]. destruct (attrs p) as [a|]; [|discriminate].
    destruct (negb (dict_contains "src" a)); [now intros [= _ <- <-]|].
    destruct (tag_is p "python");
      [|destruct (tag_is p "inline"); [|discriminate]];
      intros H;
      apply InlineDirective_new_error in H
        as [[msg' [= _ <- <-]]|(q & ex & _ & _ & [=])]; auto.
  - cbn [rbind]. intros [= ->]. now apply feed_error in F.
Qed.

Lemma parse_error_at l n msg l' n' :
  parse_directive l n = Raise (InlineError msg l' n') -> l' = l /\ n' = n.
Proof.
  unfold parse_directive. destruct (extract_line_comment l) as [t|];
    [|discriminate].
  destruct (looks_like_opening t).
  - destruct (parse_opening t l n) as [d|e] eqn:P; [discriminate|].
    cbn [rbind]. intros [= ->]. now apply parse_opening_error_location in P.
  - destruct (is_closing_text t); discriminate.
Qed.

(** X5: a directive error raised while parsing a line carries that line
    and the line number the parser was given. *)
Theorem parse_error_location l n msg l' n' :
  parse_directive l n = Raise (InlineError msg l' n') -> l' = l /\ n' = n.
Proof. apply parse_error_at. Qed.

Lemma dict_get_contains key a v :
  dict_get key a = Some v -> dict_contains key a = true.
Proof.
  unfold dict_get, dict_contains. now destruct (dict_lookup key a).
Qed.

Lemma InlineDirective_new_keeps n l src vb lg st en d :
  InlineDirective_new OPENING n l src vb lg st en = Ok d ->
  verbatim d = vb /\ lang d = lg
  /\ exists p file, source d = Some p /\ fs p = Readable file.
Proof.
  intros H.
  apply InlineDirective_new_Ok_inv in H as (p & file & _ & F & _ & _ & ->).
  cbn. repeat split. eauto.
Qed.

Lemma parsed_directive_facts l n d :
  parse_directive l n = Ok (Some d) ->
  line d = l /\ lineno d = n
  /\ (type d = OPENING ->
      (exists p file, source d = Some p /\ fs p = Readable file)
      /\ (lang d <> None -> verbatim d = true))
  /\ (type d = CLOSING ->
      source d = None /\ lang d = None /\ start d = None /\ end_ d = None).
Proof.
  intros H. destruct (parse_fields _ _ _ H) as [Hn Hl].
  split; [exact Hl|]. split; [exact Hn|].
  unfold parse_directive in H.
  destruct (extract_line_comment l) as [t|]; [|discriminate].
  destruct (looks_like_opening t).
  - destruct (parse_opening t l n) as [d'|] eqn:P; [|discriminate].
    cbn [rbind] in H. injection H as <-.
    pose proof (parse_opening_fields _ _ _ _ P) as (T & _ & _).
    split; [|rewrite T; discriminate]. intros _.
    unfold parse_opening in P.
    destruct (DirectiveParser_feed t) as [p|]; [|discriminate].
    cbn [rbind] in P. destruct (attrs p) as [a|]; [|discriminate].
    destruct (negb (dict_contains "src" a)); [discriminate|].
    destruct (tag_is p "python").
    + apply InlineDirective_new_keeps in P as (V & L & S). auto.
    + destruct (tag_is p "inline"); [|discriminate].
      apply InlineDirective_new_keeps in P as (V & L & S).
      split; [exact S|]. rewrite V, L. intros N.
      destruct (dict_get "lang" a) as [x|] eqn:G; [|congruence].
      rewrite (dict_get_contains _ _ _ G). apply orb_true_r.
  - destruct (is_closing_text t); [|discriminate].
    cbn in H. injection H as <-. cbn. split; [discriminate | auto].
Qed.

(** X6: a directive the parser returns records the line it was found on
    and its number.  An opening directive names a source that is a
    readable file, and is verbatim whenever it has a language.  A closing
    directive has no source, no language and no bounds. *)
Theorem parsed_directive_invariants l n d :
  parse_directive l n = Ok (Some d) ->
  line d = l /\ lineno d = n
  /\ (type d = OPENING ->
      (exists p file, source d = Some p /\ fs p = Readable file)
      /\ (lang d <> None -> verbatim d = true))
  /\ (type d = CLOSING ->
      source d = None /\ lang d = None /\ start d = None /\ end_ d = None).
Proof. apply parsed_directive_facts. Qed.


(** *** Content generation: every outcome *)

Lemma firstn_skipn_segment (file : list string) a k :
  exists before after, file = before ++ firstn k (skipn a file) ++ after.
Proof.
  exists (firstn a file), (skipn k (skipn a file)).
  now rewrite firstn_skipn, firstn_skipn.
Qed.

(** The index [contents] starts the slice at. *)
Lemma start_index_cases d :
  let a := match start d with Some s => (s - 1)%Z | None => 0%Z end in
  (start d = None /\ a = 0%Z) \/ (exists s, start d = Some s /\ a = (s - 1)%Z).
Proof. destruct (start d) as [s|]; cbn; eauto. Qed.

Lemma contents_of_readable d p file :
  source d = Some p -> fs p = Readable file ->
  let M := Zpos sys_maxsize in
  let a := match start d with Some s => (s - 1)%Z | None => 0%Z end in
  ((a < 0)%Z \/ (M < a)%Z
   \/ (exists e, end_ d = Some e /\ ((e < 0)%Z \/ (M < e)%Z)) ->
   exists msg, contents d = (fence_open d, Raise (ValueError msg)))
  /\ ((0 <= a <= M)%Z -> (forall e, end_ d = Some e -> (0 <= e <= M)%Z) ->
      exists before body after,
        contents d = (fence_open d ++ body ++ fence_close d, Ok tt)
        /\ file = before ++ body ++ after).
Proof.
  intros Hs Hf M a. rewrite (contents_readable d p file Hs Hf). fold a. fold M.
  split.
  - intros H. destruct (islice_refuses M file a (end_ d) H) as [msg ->]. eauto.
  - intros A E. rewrite (islice_accepts M file a (end_ d) A E).
    destruct (end_ d) as [e|].
    + destruct (firstn_skipn_segment file (Z.to_nat a) (Z.to_nat e - Z.to_nat a))
        as (before & after & F).
      exists before, (firstn (Z.to_nat e - Z.to_nat a) (skipn (Z.to_nat a) file)),
        after.
      split; [reflexivity | exact F].
    + exists (firstn (Z.to_nat a) file), (skipn (Z.to_nat a) file), [].
      split; [reflexivity|]. now rewrite app_nil_r, firstn_skipn.
Qed.

(** X7: generating the contents of a directive whose source is a readable
    file fails exactly when a bound is refused by the slicing: [start] not
    above zero, [end] below zero, or [start - 1] or [end] above
    [sys.maxsize]; it then raises a [ValueError] after the opening fence,
    never a directive error.  Otherwise it yields the opening fence, a run
    of consecutive lines of the file, and the closing fence.  In
    particular [end=0], or an [end] below [start], gives an empty or
    shorter body and no error. *)
Theorem contents_outcome d p file :
  source d = Some p -> fs p = Readable file ->
  let bad_bounds :=
    (exists s, start d = Some s
               /\ ((s <= 0)%Z \/ (Zpos sys_maxsize + 1 < s)%Z))
    \/ (exists e, end_ d = Some e
                  /\ ((e < 0)%Z \/ (Zpos sys_maxsize < e)%Z)) in
  (bad_bounds -> exists msg, contents d = (fence_open d, Raise (ValueError msg)))
  /\ (~ bad_bounds ->
      exists before body after,
        contents d = (fence_open d ++ body ++ fence_close d, Ok tt)
        /\ file = before ++ body ++ after).
Proof.
  intros Hs Hf bad. subst bad.
  destruct (contents_of_readable d p file Hs Hf) as (B & G).
  destruct (start_index_cases d) as [(S & A)|(s & S & A)]; cbn zeta in A.
  - split.
    + intros [(s & S' & _)|(e & E & L)]; [congruence|].
      apply B. right. right. eauto.
    + intros N. apply G; [rewrite A; lia|].
      intros e E. destruct (Z_lt_ge_dec e 0) as [L|L];
        [exfalso; apply N; right; eauto|].
      destruct (Z_lt_ge_dec (Zpos sys_maxsize) e) as [L'|L'];
        [exfalso; apply N; right; eauto|]. lia.
  - split.
    + intros [(s' & S' & L)|(e & E & L)].
      * apply B. rewrite A. assert (s' = s) as -> by congruence. lia.
      * apply B. right. right. eauto.
    + intros N. apply G.
      * rewrite A. destruct (Z_le_gt_dec s 0) as [L|L];
          [exfalso; apply N; left; eauto|].
        destruct (Z_lt_ge_dec (Zpos sys_maxsize + 1) s) as [L'|L'];
          [exfalso; apply N; left; eauto|]. lia.
      * intros e E. destruct (Z_lt_ge_dec e 0) as [L|L];
          [exfalso; apply N; right; eauto|].
        destruct (Z_lt_ge_dec (Zpos sys_maxsize) e) as [L'|L'];
          [exfalso; apply N; right; eauto|]. lia.
Qed.


(** X8: an opening tag without a [src] attribute is refused with the
    directive error "Attribute 'src' not set for <tag> directive", and a
    [src] attribute written without a value with "Source attribute must be
    present in directive"; both carry the line and its number. *)
Theorem src_attribute_required line lineno text t a :
  extract_line_comment line = Some text ->
  looks_like_opening text = true ->
  html_feed text = ([(t, a)], None) ->
  (dict_lookup "src" a = None ->
   parse_directive line lineno
   = Raise (InlineError ("Attribute 'src' not set for " +++ t +++ " directive")
                        line lineno))
  /\ (dict_lookup "src" a = Some None -> t = "inline" \/ t = "python" ->
      parse_directive line lineno
      = Raise (InlineError "Source attribute must be present in directive"
                           line lineno)).
Proof.
  intros C O F. unfold parse_directive. rewrite C, O. split.
  - intros S. unfold parse_opening. rewrite (feed_single_tag _ _ _ F).
    cbn [rbind attrs tag]. unfold dict_contains. now rewrite S.
  - intros S T. rewrite (parse_opening_single_tag _ _ _ _ _ _ F T S).
    now destruct (String.eqb t "python").
Qed.

(** *** The line number only labels *)

Lemma new_opening_renumber n m l src vb lg st en :
  rbind (InlineDirective_new OPENING m l src vb lg st en) (fun d => Ok (Some d))
  = renumber m (rbind (InlineDirective_new OPENING n l src vb lg st en)
                      (fun d => Ok (Some d))).
Proof.
  unfold InlineDirective_new, validate_source, coerce_int, raise_error.
  destruct src as [p|]; [|reflexivity].
  destruct (fs p); try reflexivity. cbn [rbind].
  destruct st as [s|]; [destruct (py_int s); [|reflexivity]|];
    (destruct en as [s'|]; [destruct (py_int s'); reflexivity | reflexivity]).
Qed.

(** X9: the line number given to the parser only labels the result: at
    another number the same line gives the same directive or the same
    error, with the other number in it. *)
Theorem parse_renumber l n m :
  parse_directive l m = renumber m (parse_directive l n).
Proof.
  unfold parse_directive. destruct (extract_line_comment l) as [t|];
    [|reflexivity].
  destruct (looks_like_opening t).
  - unfold parse_opening. destruct (DirectiveParser_feed t) as [p|e] eqn:F.
    + cbn [rbind]. destruct (attrs p) as [a|]; [|reflexivity].
      destruct (negb (dict_contains "src" a)); [reflexivity|].
      destruct (tag_is p "python"); [apply new_opening_renumber|].
      destruct (tag_is p "inline"); [apply new_opening_renumber | reflexivity].
    + cbn [rbind renumber]. apply feed_error in F. now destruct e.
  - destruct (is_closing_text t); reflexivity.
Qed.

(** *** Whole documents *)

Lemma for_lines_plain_idle clean lines :
  forallb is_plain lines = true ->
  forall n, for_lines clean None n lines = (lines, Ok None).
Proof.
  induction lines as [|l lines IH]; intros H n; [reflexivity|].
  cbn [forallb] in H. apply andb_prop in H as [Hl Hr].
  rewrite for_lines_cons, (loop_body_plain _ _ _ _ (parse_plain l n Hl)).
  cbn [passed_through]. now rewrite gbind_Ok, (IH Hr).
Qed.

(** X10: an input without directive lines is yielded as it is, line for
    line, in both modes, whatever the parser library and the file system
    are. *)
Theorem plain_document_passes_through lines clean :
  forallb is_plain lines = true ->
  result_generator lines clean = (lines, Ok tt).
Proof.
  intros H. unfold result_generator. rewrite (for_lines_plain_idle _ _ H).
  cbn. now rewrite app_nil_r.
Qed.

Lemma block_ok_pair opening between closing :
  block_ok (Pair opening between closing) = true ->
  (exists d, parse_directive opening 0 = Ok (Some d) /\ type d = OPENING
             /\ snd (contents d) = Ok tt
             /\ generated opening = fst (contents d))
  /\ forallb is_plain between = true
  /\ exists d, parse_directive closing 0 = Ok (Some d) /\ type d = CLOSING.
Proof.
  unfold generated. cbn [block_ok]. intros H.
  apply andb_prop in H as [H H3]. apply andb_prop in H as [H1 H2].
  split; [|split; [exact H2|]].
  - destruct (parse_directive opening 0) as [[d|]|]; try discriminate.
    exists d. destruct (type d); [|discriminate].
    destruct (snd (contents d)) as [[]|]; [|discriminate]. auto.
  - destruct (parse_directive closing 0) as [[d|]|]; try discriminate.
    exists d. destruct (type d); [discriminate|]. auto.
Qed.

Lemma for_lines_block clean b :
  block_ok b = true ->
  forall n, for_lines clean None n (block_input b) = (block_output clean b, Ok None).
Proof.
  destruct b as [l|opening between closing]; intros H n.
  - cbn [block_input block_output]. apply for_lines_plain_idle. cbn.
    cbn in H. now rewrite H.
  - apply block_ok_pair in H
      as ((d & Po & To & Co & G) & Hb & (dc & Pc & Tc)).
    cbn [block_input block_output]. rewrite G.
    pose proof (parse_relabel _ _ _ Po n) as Pn.
    rewrite for_lines_cons.
    assert (L : loop_body clean None n opening
                = (opening :: (if clean then [] else fst (contents d)),
                   Ok (Some (relabel n d)))).
    { destruct clean.
      - now rewrite (loop_body_opening_clean _ _ _ Pn To).
      - rewrite (loop_body_opening_transform _ _ _ Pn To), contents_relabel.
        now rewrite Co. }
    rewrite L, gbind_Ok, for_lines_app, (for_lines_plain_open _ _ _ Hb), gbind_Ok.
    rewrite for_lines_cons.
    rewrite (loop_body_closing _ _ _ _ _
               (parse_relabel _ _ _ Pc (S n + length between)) Tc).
    cbn [passed_through app gbind for_lines gret fst snd]. reflexivity.
Qed.

Lemma for_lines_blocks clean blocks :
  forallb block_ok blocks = true ->
  forall n, for_lines clean None n (flat_map block_input blocks)
            = (flat_map (block_output clean) blocks, Ok None).
Proof.
  induction blocks as [|b blocks IH]; intros H n; [reflexivity|].
  cbn [forallb] in H. apply andb_prop in H as [Hb Hr]. cbn [flat_map].
  now rewrite for_lines_app, (for_lines_block _ _ Hb), gbind_Ok, (IH Hr).
Qed.

(** X11: on a document made of ordinary lines and of closed directive
    pairs (an opening marker whose contents can be generated, ordinary
    lines, a closing marker), the pass succeeds; its output is the
    document with, for every pair, the lines between the markers replaced
    by the generated contents in transform mode and by nothing in clean
    mode.  The lines that were between the markers have no influence. *)
Theorem document_of_blocks blocks clean :
  forallb block_ok blocks = true ->
  result_generator (flat_map block_input blocks) clean
  = (flat_map (block_output clean) blocks, Ok tt).
Proof.
  intros H. unfold result_generator. rewrite (for_lines_blocks _ _ H).
  cbn. now rewrite app_nil_r.
Qed.

(** *** The two modes *)

Lemma clean_rescan_clean lines :
  forall current n out current',
    for_lines true current n lines = (out, Ok current') ->
    idle_close_free (is_open current) n lines = true ->
    forall m again, is_open again = is_open current ->
      exists again',
        for_lines true again m out = (out, Ok again')
        /\ is_open again' = is_open current'.
Proof.
  induction lines as [|l rest IH]; intros current n out current' H F m again O.
  - injection H as <- <-. exists again. auto.
  - rewrite for_lines_cons in H.
    apply gbind_inv_Ok in H as (o1 & c1 & o2 & L & R & ->).
    cbn [idle_close_free] in F.
    apply loop_body_Ok_inv in L
      as [(P & -> & ->)|[(d & P & T & -> & ->)|(d & P & T & -> & -> & -> & _)]];
      rewrite P in F; try rewrite T in F.
    + destruct current as [cur|]; cbn [passed_through app].
      * exact (IH _ _ _ _ R F m again O).
      * apply is_open_false in O as ->.
        destruct (IH _ _ _ _ R F (S m) None eq_refl) as (again' & R' & O').
        exists again'. split; [|exact O'].
        rewrite for_lines_cons, (loop_body_plain _ _ _ _ (parse_None_any _ _ m P)).
        cbn [passed_through]. now rewrite gbind_Ok, R'.
    + apply andb_prop in F as [Oc F]. apply is_open_true in Oc as [cur ->].
      cbn [passed_through app]. cbn [is_open] in O.
      apply is_open_true in O as [cur' ->].
      destruct (IH _ _ _ _ R F (S m) None eq_refl) as (again' & R' & O').
      exists again'. split; [|exact O'].
      rewrite for_lines_cons.
      rewrite (loop_body_closing _ _ _ _ _ (parse_relabel _ _ _ P m) T).
      cbn [passed_through app]. now rewrite gbind_Ok, R'.
    + apply is_open_false in O as ->.
      destruct (IH _ _ _ _ R F (S m) (Some (relabel m d)) eq_refl)
        as (again' & R' & O').
      exists again'. split; [|exact O'].
      cbn [app]. rewrite for_lines_cons.
      rewrite (loop_body_opening_clean _ _ _ (parse_relabel _ _ _ P m) T).
      now rewrite gbind_Ok, R'.
Qed.

(** X12: cleaning is idempotent: when the cleaning pass succeeds on an
    input in which no closing directive is met while idle, the cleaning
    pass over its output succeeds and yields the same lines. *)
Theorem clean_idempotent lines out :
  result_generator lines true = (out, Ok tt) ->
  idle_close_free false 1 lines = true ->
  result_generator out true = (out, Ok tt).
Proof.
  unfold result_generator. intros H F.
  apply gbind_inv_Ok in H as (o1 & c & o2 & R & E & ->).
  destruct c as [d|]; [discriminate|]. injection E as <-.
  rewrite app_nil_r.
  destruct (clean_rescan_clean _ _ _ _ _ R F 1 None eq_refl) as (again & R' & O).
  apply is_open_false in O as ->. rewrite R'. cbn. now rewrite app_nil_r.
Qed.


Lemma fst_gbind {A B} (m : Gen A) (k : A -> Gen B) :
  fst (gbind m k) = fst m ++ match snd m with Ok a => fst (k a) | Raise _ => [] end.
Proof.
  destruct m as [o [a|e]]; cbn; [now destruct (k a) | now rewrite app_nil_r].
Qed.



Lemma loop_body_clean_output current n l x :
  In x (fst (loop_body true current n l)) -> x = l.
Proof.
  destruct (parse_directive l n) as [[d|]|e] eqn:P.
  - destruct (type d) eqn:T.
    + destruct current as [cur|].
      * now rewrite (loop_body_nested _ _ _ _ _ P T).
      * rewrite (loop_body_opening_clean _ _ _ P T). cbn. intuition.
    + rewrite (loop_body_closing _ _ _ _ _ P T). cbn [fst].
      destruct current; cbn; intuition.
  - rewrite (loop_body_plain _ _ _ _ P). destruct current; cbn; intuition.
  - rewrite (loop_body_error _ _ _ _ _ P). destruct current; cbn; intuition.
Qed.

Lemma for_lines_clean_output lines :
  forall current n x, In x (fst (for_lines true current n lines)) -> In x lines.
Proof.
  induction lines as [|l rest IH]; intros current n x; [now cbn|].
  rewrite for_lines_cons, fst_gbind. intros H. apply in_app_or in H as [H|H].
  - left. symmetry. now apply loop_body_clean_output in H.
  - right. destruct (snd (loop_body true current n l)) as [c|e]; [|now cbn in H].
    now apply IH in H.
Qed.

(** X14: the cleaning pass writes nothing of its own: every line it
    yields is a line of the input, also when it ends with an error. *)
Theorem clean_yields_input_lines lines x :
  In x (fst (result_generator lines true)) -> In x lines.
Proof.
  unfold result_generator. rewrite fst_gbind. intros H.
  apply in_app_or in H as [H|H]; [now apply for_lines_clean_output in H|].
  destruct (snd (for_lines true None 1 lines)) as [[d|]|e]; now cbn in H.
Qed.

(** *** Errors *)

Lemma contents_error_untagged d o e :
  contents d = (o, Raise e) -> is_InlineError e = false.
Proof.
  destruct (source d) as [p|] eqn:S.
  - destruct (fs p) as [|ex|ex|file] eqn:F.
    1-3: unfold contents, open_source; rewrite S, F; cbn;
      now intros [= _ <-].
    rewrite (contents_readable d p file S F).
    destruct (islice _ _ _ _) as [body|e'] eqn:I; [discriminate|].
    intros [= _ <-]. now apply islice_error in I as [msg ->].
  - unfold contents, open_source. rewrite S. cbn. now intros [= _ <-].
Qed.

Lemma gbind_inv_Raise {A B} (m : Gen A) (k : A -> Gen B) out e :
  gbind m k = (out, Raise e) ->
  m = (out, Raise e)
  \/ exists o1 a o2, m = (o1, Ok a) /\ k a = (o2, Raise e) /\ out = o1 ++ o2.
Proof.
  destruct m as [o1 [a|e']]; cbn.
  - destruct (k a) as [o2 r] eqn:K. intros [= <- ->]. right. now exists o1, a, o2.
  - intros [= <- <-]. now left.
Qed.

Lemma loop_body_directive_error clean current n l o msg l' k :
  loop_body clean current n l = (o, Raise (InlineError msg l' k)) ->
  l' = l /\ k = n.
Proof.
  destruct (parse_directive l n) as [[d|]|e] eqn:P.
  - destruct (type d) eqn:T.
    + destruct current as [cur|].
      * rewrite (loop_body_nested _ _ _ _ _ P T). now intros [= _ _ <- <-].
      * destruct clean.
        -- rewrite (loop_body_opening_clean _ _ _ P T). discriminate.
        -- rewrite (loop_body_opening_transform _ _ _ P T).
           destruct (contents d) as [body [[]|e]] eqn:C; cbn [fst snd];
             [discriminate|].
           intros [= _ ->]. now apply contents_error_untagged in C.
    + rewrite (loop_body_closing _ _ _ _ _ P T). discriminate.
  - rewrite (loop_body_plain _ _ _ _ P). discriminate.
  - rewrite (loop_body_error _ _ _ _ _ P). intros [= _ ->].
    now apply parse_error_at in P.
Qed.

Lemma for_lines_directive_error clean lines :
  forall current n out msg l k,
    for_lines clean current n lines = (out, Raise (InlineError msg l k)) ->
    n <= k /\ nth_error lines (k - n) = Some l.
Proof.
  induction lines as [|x rest IH]; intros current n out msg l k; [discriminate|].
  rewrite for_lines_cons. intros H.
  apply gbind_inv_Raise in H as [H|(o1 & c & o2 & _ & H & _)].
  - apply loop_body_directive_error in H as [-> ->].
    rewrite Nat.sub_diag. auto.
  - apply IH in H as [L N]. split; [lia|].
    replace (k - n) with (S (k - S n)) by lia. exact N.
Qed.

(** X15: a directive error that ends a scan cites a line of the input:
    its line number is between 1 and the number of input lines, and its
    line text is the input line with that number. *)
Theorem directive_error_cites_input lines clean out msg l k :
  result_generator lines clean = (out, Raise (InlineError msg l k)) ->
  1 <= k <= length lines /\ nth_error lines (k - 1) = Some l.
Proof.
  unfold result_generator. intros H.
  apply gbind_inv_Raise in H as [H|(o1 & c & o2 & R & H & _)].
  - apply for_lines_directive_error in H as [L N].
    assert (k - 1 < length lines) by (apply nth_error_Some; congruence).
    split; [lia | exact N].
  - destruct c as [d|]; [|discriminate]. injection H as _ <- <- <-.
    apply open_directive_origin_idle in R as (L & N & _). auto.
Qed.

(** X16: the scan is incremental and its errors are final: the lines
    yielded for the first lines of an input stay the beginning of what is
    yielded when more lines follow, and when the loop raises on the first
    lines, the scan of the longer input ends with the same error after the
    same output. *)
Theorem scan_is_incremental pre post clean :
  (exists more,
      fst (result_generator (pre ++ post) clean)
      = fst (result_generator pre clean) ++ more)
  /\ (forall out e,
         for_lines clean None 1 pre = (out, Raise e) ->
         result_generator (pre ++ post) clean = (out, Raise e)).
Proof.
  unfold result_generator. split.
  - rewrite for_lines_app, gbind_assoc, !fst_gbind.
    destruct (for_lines clean None 1 pre) as [o [c|e]]; cbn [fst snd].
    + destruct c as [d|]; cbn [fst graise gret]; rewrite app_nil_r; eauto.
    + exists []. now rewrite !app_nil_r.
  - intros out e H. now rewrite for_lines_app, H.
Qed.

(** C6, on a source path on which [exists()] itself raises (a file in a
    directory that cannot be searched): the [OSError] leaves the
    constructor as it is, not as a directive error, and the validation
    pass ends with it in both modes.  The check is made at construction,
    as claimed; the error is not tagged. *)
Theorem inaccessible_source_escapes lineno line src verbatim lang start_attr
        end_attr ex :
  fs src = Inaccessible ex ->
  InlineDirective_new OPENING lineno line (Some src) verbatim lang start_attr
                      end_attr
  = Raise (OSError ex)
  /\ (forall clean pre post out current text t a,
         for_lines clean None 1 pre = (out, Ok current) ->
         S (length pre) = lineno ->
         extract_line_comment line = Some text ->
         looks_like_opening text = true ->
         html_feed text = ([(t, a)], None) ->
         t = "inline" \/ t = "python" ->
         dict_lookup "src" a = Some (Some src) ->
         check (pre ++ line :: post) clean = Raise (OSError ex)).
Proof.
  intros F.
  assert (V : forall vb lg st en,
             InlineDirective_new OPENING lineno line (Some src) vb lg st en
             = Raise (OSError ex)).
  { intros. unfold InlineDirective_new, validate_source. now rewrite F. }
  split; [apply V|].
  intros clean pre post out current text t a R L C O H T S.
  assert (P : parse_directive line lineno = Raise (OSError ex)).
  { unfold parse_directive. rewrite C, O.
    rewrite (parse_opening_single_tag _ _ _ _ _ _ H T S).
    destruct (String.eqb t "python"); now rewrite V. }
  unfold check, consume_iterator, result_generator.
  rewrite for_lines_app, R. cbn [for_lines]. rewrite gbind_Ok.
  cbn [Nat.add]. rewrite L. rewrite (loop_body_error _ _ _ _ _ P).
  reflexivity.
Qed.

(** An exception the markup parser raises by itself leaves the parser of
    directives as it is. *)
Lemma feed_exception_escapes line lineno text events class_name message :
  extract_line_comment line = Some text ->
  looks_like_opening text = true ->
  html_feed text = (events, Some (FeedRaises class_name message)) ->
  length events <= 1 ->
  parse_directive line lineno = Raise (LibraryError class_name message).
Proof.
  intros C O F L. unfold parse_directive, parse_opening, DirectiveParser_feed.
  rewrite C, O, F. destruct events as [|t [|t' rest]]; cbn in L; try lia;
    reflexivity.
Qed.

End Properties.

(** ** Two file systems *)

Section TwoFileSystems.

Variable feed : string -> list StartTag * option FeedStop.
Variable pstr : string -> string.
Variable maxsize : positive.
Variables fs1 fs2 : string -> FileState.

(** The two file systems agree on which paths exist and can be opened,
    and on the message of a path that cannot. *)
Hypothesis same_kind : forall p, file_kind (fs1 p) = file_kind (fs2 p).

Lemma validate_source_same_kind l n src :
  validate_source (W := world_of feed pstr fs1 maxsize) l n src
  = validate_source (W := world_of feed pstr fs2 maxsize) l n src.
Proof.
  unfold validate_source. destruct src as [p|]; [|reflexivity].
  cbn [fs path_str world_of]. pose proof (same_kind p) as K.
  destruct (fs1 p), (fs2 p); cbn in K; try discriminate; try reflexivity;
    now injection K as ->.
Qed.

Lemma InlineDirective_new_same_kind t n l src vb lg st en :
  InlineDirective_new (W := world_of feed pstr fs1 maxsize) t n l src vb lg st en
  = InlineDirective_new (W := world_of feed pstr fs2 maxsize) t n l src vb lg st en.
Proof.
  unfold InlineDirective_new. now rewrite validate_source_same_kind.
Qed.

Lemma parse_directive_same_kind l n :
  parse_directive (W := world_of feed pstr fs1 maxsize) l n
  = parse_directive (W := world_of feed pstr fs2 maxsize) l n.
Proof.
  unfold parse_directive, parse_opening.
  destruct (extract_line_comment l) as [t|]; [|reflexivity].
  destruct (looks_like_opening t); [|reflexivity].
  change (DirectiveParser_feed (W := world_of feed pstr fs1 maxsize) t)
    with (DirectiveParser_feed (W := world_of feed pstr fs2 maxsize) t).
  destruct (DirectiveParser_feed (W := world_of feed pstr fs2 maxsize) t) as [p|];
    [|reflexivity].
  cbn [rbind]. destruct (attrs p) as [a|]; [|reflexivity].
  now rewrite !InlineDirective_new_same_kind.
Qed.

Lemma loop_body_clean_same_kind current n l :
  loop_body (W := world_of feed pstr fs1 maxsize) true current n l
  = loop_body (W := world_of feed pstr fs2 maxsize) true current n l.
Proof. unfold loop_body. now rewrite parse_directive_same_kind. Qed.

Lemma for_lines_clean_same_kind lines :
  forall current n,
    for_lines (W := world_of feed pstr fs1 maxsize) true current n lines
    = for_lines (W := world_of feed pstr fs2 maxsize) true current n lines.
Proof.
  induction lines as [|l rest IH]; intros current n; [reflexivity|].
  cbn [for_lines]. rewrite loop_body_clean_same_kind.
  apply gbind_ext. intros c. apply IH.
Qed.

(** X17: the cleaning pass does not read the source files: over two file
    systems in which the same paths exist and can be opened, it yields the
    same lines and ends the same way, whatever the files hold. *)
Theorem clean_ignores_file_contents lines :
  result_generator (W := world_of feed pstr fs1 maxsize) lines true
  = result_generator (W := world_of feed pstr fs2 maxsize) lines true.
Proof.
  unfold result_generator. now rewrite for_lines_clean_same_kind.
Qed.

End TwoFileSystems.

(** ** The engine on the reference tokenizer and the small file system *)

(** Scenarios A and B of the specification. *)
Example scenario_A_transform :
  demo_run scenario_A false
  = ([nl "head"; opening_f; nl "a"; nl "b"; closing_inline; nl "tail"], Ok tt).
Proof. reflexivity. Qed.

Example scenario_B_clean : demo_run scenario_A true = (scenario_A, Ok tt).
Proof. reflexivity. Qed.

(** C2, counterexample: the file [nested] holds an opening marker.  The
    transforming pass succeeds on a marker pair over it; run again on its
    own output, it stops with a directive error at line 2. *)
Lemma transform_twice_counterexample :
  let input := [opening_nested; closing_inline] in
  let out := [opening_nested; opening_f; closing_inline] in
  demo_run input false = (out, Ok tt)
  /\ demo_run out false
     = ([opening_nested; nl "<!-- <inline src=f> -->"],
        Raise (InlineError
                 "New directive found while previous is still open at line 1"
                 opening_f 2))
  /\ demo_run out false <> (out, Ok tt).
Proof. split; [reflexivity | split; [reflexivity | discriminate]]. Qed.

(** C2, amended, on scenario A. *)
Lemma transform_idempotent_witness :
  let out := [nl "head"; opening_f; nl "a"; nl "b"; closing_inline; nl "tail"] in
  demo_run scenario_A false = (out, Ok tt)
  /\ idle_close_free (W := demo_world) false 1 scenario_A = true
  /\ bodies_plain (W := demo_world) 1 scenario_A = true
  /\ demo_run out false = (out, Ok tt).
Proof.
  assert (H1 : demo_run scenario_A false
               = ([nl "head"; opening_f; nl "a"; nl "b"; closing_inline; nl "tail"],
                  Ok tt)) by reflexivity.
  assert (H2 : idle_close_free (W := demo_world) false 1 scenario_A = true)
    by reflexivity.
  assert (H3 : bodies_plain (W := demo_world) 1 scenario_A = true) by reflexivity.
  split; [exact H1|]. split; [exact H2|]. split; [exact H3|].
  exact (transform_idempotent (W := demo_world) _ _ H1 H2 H3).
Defined.

(** C3, counterexample: [start=4] and [end=2^63] over the file of ten
    lines.  Both bounds are positive; the slicing refuses the stop, which
    is above [sys.maxsize], and no line is generated, where the lines 4 to
    10 are claimed. *)
Lemma contents_bounds_counterexample :
  let d := mkInlineDirective OPENING 1 opening_end_huge (Some "ten") false None
                             (Some 4%Z) (Some 9223372036854775808%Z) in
  demo_parse opening_end_huge 1 = Ok (Some d)
  /\ demo_contents d = ([], Raise (ValueError islice_stop_message))
  /\ demo_contents d
     <> ([nl "line 4"; nl "line 5"; nl "line 6"; nl "line 7"; nl "line 8";
          nl "line 9"; nl "line 10"], Ok tt)
  /\ demo_run [opening_end_huge; closing_inline] false
     = ([opening_end_huge], Raise (ValueError islice_stop_message)).
Proof.
  split; [reflexivity|]. split; [reflexivity|]. split; [discriminate|].
  reflexivity.
Qed.

(** C3, amended, on scenario D: [start=4 end=6] over the file of ten
    lines. *)
Lemma contents_bounds_witness :
  let d := mkInlineDirective OPENING 1 opening_ten_4_6 (Some "ten") false None
                             (Some 4%Z) (Some 6%Z) in
  demo_parse opening_ten_4_6 1 = Ok (Some d)
  /\ demo_contents d = ([nl "line 4"; nl "line 5"; nl "line 6"], Ok tt).
Proof.
  split; [reflexivity|].
  refine (proj1 (contents_bounds (W := demo_world)
                   (mkInlineDirective OPENING 1 opening_ten_4_6 (Some "ten") false
                                      None (Some 4%Z) (Some 6%Z))
                   "ten" _ eq_refl eq_refl _ _)).
  - intros s [= <-]. split; [reflexivity | vm_compute; discriminate].
  - intros e [= <-]. split; [reflexivity | vm_compute; discriminate].
Defined.

(** C4 on scenario C: the directive opened at line 2 is never closed. *)
Lemma unclosed_directive_raises_witness :
  let d := mkInlineDirective OPENING 2 opening_f (Some "f") false None None None in
  demo_scan false None 1 scenario_C
  = ([nl "head"; opening_f; nl "a"; nl "b"], Ok (Some d))
  /\ demo_check scenario_C false
     = Raise (InlineError "Directive not closed at end of file" opening_f 2).
Proof.
  assert (H : demo_scan false None 1 scenario_C
              = ([nl "head"; opening_f; nl "a"; nl "b"],
                 Ok (Some (mkInlineDirective OPENING 2 opening_f (Some "f") false
                                             None None None)))) by reflexivity.
  split; [exact H|].
  exact (proj1 (proj2 (unclosed_directive_raises (W := demo_world) false _ _ _ H))).
Defined.

(** C5: a second opening marker at line 3 while the one of line 2 is open. *)
Lemma nested_opening_raises_witness :
  let d := mkInlineDirective OPENING 2 opening_f (Some "f") false None None None in
  let d2 := mkInlineDirective OPENING 3 opening_nested (Some "nested") false None
                              None None in
  demo_scan true None 1 scenario_C = ([nl "head"; opening_f], Ok (Some d))
  /\ demo_parse opening_nested 3 = Ok (Some d2)
  /\ type d2 = OPENING
  /\ demo_run (scenario_C ++ [opening_nested; closing_inline]) true
     = ([nl "head"; opening_f],
        Raise (InlineError
                 "New directive found while previous is still open at line 2"
                 opening_nested 3)).
Proof.
  assert (H : demo_scan true None 1 scenario_C
              = ([nl "head"; opening_f],
                 Ok (Some (mkInlineDirective OPENING 2 opening_f (Some "f") false
                                             None None None)))) by reflexivity.
  assert (P : demo_parse opening_nested (S (length scenario_C))
              = Ok (Some (mkInlineDirective OPENING 3 opening_nested
                                            (Some "nested") false None None None)))
    by reflexivity.
  split; [exact H|]. split; [exact P|]. split; [reflexivity|].
  exact (proj1 (nested_opening_raises (W := demo_world) true
                  scenario_C opening_nested [closing_inline] _ _ _ H P eq_refl)).
Defined.

(** The path [nope] does not exist; the constructor and the validation
    pass in clean mode both raise the directive error. *)
Lemma source_checked_at_construction_witness :
  (demo_fs "nope" = Missing \/ (exists ex, demo_fs "nope" = Unreadable ex))
  /\ (exists msg,
         demo_new OPENING 2 opening_missing (Some "nope") false None None None
         = Raise (InlineError msg opening_missing 2))
  /\ (exists msg,
         demo_check ([nl "head"] ++ opening_missing :: [closing_inline]) true
         = Raise (InlineError msg opening_missing 2)).
Proof.
  assert (H : fs (World := demo_world) "nope" = Missing
              \/ (exists ex, fs (World := demo_world) "nope" = Unreadable ex))
    by (left; reflexivity).
  pose proof (source_checked_at_construction (W := demo_world)
                2 opening_missing "nope" false None None None H) as [C1 C2].
  split; [exact H|]. split; [exact C1|].
  apply (C2 true [nl "head"] [closing_inline] [nl "head"] None
            "<inline src=nope>" "inline" [("src", Some "nope")]);
    try reflexivity.
  left; reflexivity.
Defined.

(** C8, counterexample: a tab after the tag name.  The text matches the
    pattern of the specification, and the line is no directive. *)
Lemma opening_pattern_counterexample :
  let text := "<inline" +++ tab +++ "src=f>" in
  extract_line_comment opening_with_tab = Some text
  /\ spec_opening_pattern text = true
  /\ marker_feed text = ([("inline", [("src", Some "f")])], None)
  /\ demo_parse opening_with_tab 1 = Ok None.
Proof. do 3 (split; [reflexivity|]). reflexivity. Qed.

(** C8, amended, on an opening marker. *)
Lemma directive_kinds_witness :
  extract_line_comment opening_f = Some "<inline src=f>"
  /\ demo_parse opening_f 1
     = rbind (parse_opening (W := demo_world) "<inline src=f>" opening_f 1)
             (fun d => Ok (Some d)).
Proof.
  split; [reflexivity|].
  refine (proj1 (proj1 (directive_kinds (W := demo_world)
                          opening_f 1 "<inline src=f>" eq_refl) _)).
  exists "src=f>". left. reflexivity.
Defined.

(** C10 on [start='0']: constructed, then a [ValueError] after the fence. *)
Lemma nonpositive_start_fails_late_witness :
  let d := mkInlineDirective OPENING 1 opening_start_0 (Some "f") true
                             (Some "python") (Some 0%Z) None in
  demo_fs "f" = Readable [nl "a"; nl "b"]
  /\ py_int "0" = Some 0%Z
  /\ demo_new OPENING 1 opening_start_0 (Some "f") true (Some "python")
              (Some "0") None = Ok d
  /\ (exists msg, demo_contents d = ([nl "```python"], Raise (ValueError msg))).
Proof.
  pose proof (nonpositive_start_fails_late (W := demo_world)
                1 opening_start_0 "f" [nl "a"; nl "b"] true (Some "python")
                "0" 0%Z None None eq_refl eq_refl ltac:(lia) eq_refl) as [C1 [C2 _]].
  split; [reflexivity|]. split; [reflexivity|]. split; [exact C1 | exact C2].
Defined.

(** [start=-2]: the transforming pass stops with the [ValueError] right
    after the marker line; the cleaning pass does not look at the bounds. *)
Example negative_start_transform :
  demo_run [opening_start_minus_2; closing_inline] false
  = ([opening_start_minus_2],
     Raise (ValueError
              "Indices for islice() must be None or an integer: 0 <= x <= sys.maxsize."))
  /\ demo_run [opening_start_minus_2; closing_inline] true
     = ([opening_start_minus_2; closing_inline], Ok tt).
Proof. split; reflexivity. Qed.

(** A tag the comment leaves unfinished: no start tag is delivered and the
    scan stops with a [TypeError]. *)
Example unterminated_tag_check :
  demo_check [opening_unterminated] true
  = Raise (TypeError "'NoneType' object is not iterable").
Proof. reflexivity. Qed.

(** A path that cannot be opened: the text of the exception becomes the
    message of the directive error. *)
Example unreadable_source_check :
  demo_check [nl "<!-- <inline src=locked> -->"; closing_inline] true
  = Raise (InlineError "[Errno 13] Permission denied: 'locked'"
                       (nl "<!-- <inline src=locked> -->") 1).
Proof. reflexivity. Qed.

(** ** Witnesses of the further properties *)

(** X1 on the opening marker of scenario A. *)
Lemma extract_line_comment_sound_witness :
  extract_line_comment opening_f = Some "<inline src=f>"
  /\ has_line_feed "<inline src=f>" = false
  /\ starts_with_space "<inline src=f>" = false
  /\ ends_with_space "<inline src=f>" = false.
Proof.
  split; [reflexivity|].
  exact (proj2 (extract_line_comment_sound opening_f "<inline src=f>" eq_refl)).
Defined.

(** X2: an indented closing marker with text after it. *)
Lemma extract_line_comment_complete_witness :
  extract_line_comment ("  " +++ "<!--" +++ " " +++ "</inline>" +++ " " +++ "-->"
                        +++ " trailing")
  = Some "</inline>".
Proof.
  exact (extract_line_comment_complete "  " " " " " "</inline>" " trailing"
           eq_refl eq_refl eq_refl eq_refl eq_refl eq_refl eq_refl).
Defined.

(** X5: the error for the missing file, parsed as line 3. *)
Lemma parse_error_location_witness :
  demo_parse opening_missing 3
  = Raise (InlineError "File nope not found" opening_missing 3)
  /\ opening_missing = opening_missing /\ 3 = 3.
Proof.
  assert (H : parse_directive (W := demo_world) opening_missing 3
              = Raise (InlineError "File nope not found" opening_missing 3))
    by reflexivity.
  split; [exact H|].
  exact (parse_error_location (W := demo_world) _ _ _ _ _ H).
Defined.

(** X6 on the opening marker of scenario A, parsed as line 2. *)
Lemma parsed_directive_invariants_witness :
  let d := mkInlineDirective OPENING 2 opening_f (Some "f") false None None None in
  demo_parse opening_f 2 = Ok (Some d)
  /\ line d = opening_f /\ lineno d = 2
  /\ (type d = OPENING ->
      (exists p file, source d = Some p /\ demo_fs p = Readable file)
      /\ (lang d <> None -> verbatim d = true))
  /\ (type d = CLOSING ->
      source d = None /\ lang d = None /\ start d = None /\ end_ d = None).
Proof.
  assert (H : parse_directive (W := demo_world) opening_f 2
              = Ok (Some (mkInlineDirective OPENING 2 opening_f (Some "f") false
                                            None None None))) by reflexivity.
  split; [exact H|].
  exact (parsed_directive_invariants (W := demo_world) _ _ _ H).
Defined.

(** X7 on [end=-1]: refused by the slicing. *)
Lemma contents_outcome_witness :
  let d := mkInlineDirective OPENING 1 opening_end_minus_1 (Some "f") false None
                             None (Some (-1)%Z) in
  demo_parse opening_end_minus_1 1 = Ok (Some d)
  /\ exists msg, demo_contents d = (fence_open d, Raise (ValueError msg)).
Proof.
  split; [reflexivity|].
  refine (proj1 (contents_outcome (W := demo_world)
                   (mkInlineDirective OPENING 1 opening_end_minus_1 (Some "f")
                                      false None None (Some (-1)%Z))
                   "f" [nl "a"; nl "b"] eq_refl eq_refl) _).
  right. exists (-1)%Z. split; [reflexivity | lia].
Defined.

(** X8: an opening marker without [src]. *)
Lemma src_attribute_required_witness :
  extract_line_comment opening_no_src = Some "<inline start=1>"
  /\ marker_feed "<inline start=1>" = ([("inline", [("start", Some "1")])], None)
  /\ demo_parse opening_no_src 1
     = Raise (InlineError "Attribute 'src' not set for inline directive"
                          opening_no_src 1).
Proof.
  split; [reflexivity|]. split; [reflexivity|].
  exact (proj1 (src_attribute_required (W := demo_world) opening_no_src 1
                  "<inline start=1>" "inline" [("start", Some "1")]
                  eq_refl eq_refl eq_refl) eq_refl).
Defined.

(** X10 on two ordinary lines, one of them a comment that is no directive. *)
Lemma plain_document_passes_through_witness :
  forallb is_plain [nl "head"; nl "<!-- a remark -->"] = true
  /\ demo_run [nl "head"; nl "<!-- a remark -->"] false
     = ([nl "head"; nl "<!-- a remark -->"], Ok tt).
Proof.
  split; [reflexivity|].
  exact (plain_document_passes_through (W := demo_world)
           [nl "head"; nl "<!-- a remark -->"] false eq_refl).
Defined.

(** X11 on scenario A with an old line between the markers. *)
Lemma document_of_blocks_witness :
  forallb (block_ok (W := demo_world)) demo_blocks = true
  /\ flat_map block_input demo_blocks = scenario_stale
  /\ demo_run scenario_stale false
     = ([nl "head"; opening_f; nl "a"; nl "b"; closing_inline; nl "tail"], Ok tt)
  /\ demo_run scenario_stale true = (scenario_A, Ok tt).
Proof.
  split; [reflexivity|]. split; [reflexivity|]. split.
  - exact (document_of_blocks (W := demo_world) demo_blocks false eq_refl).
  - exact (document_of_blocks (W := demo_world) demo_blocks true eq_refl).
Defined.

(** X12 on the same input. *)
Lemma clean_idempotent_witness :
  demo_run scenario_stale true = (scenario_A, Ok tt)
  /\ idle_close_free (W := demo_world) false 1 scenario_stale = true
  /\ demo_run scenario_A true = (scenario_A, Ok tt).
Proof.
  assert (H : result_generator (W := demo_world) scenario_stale true
              = (scenario_A, Ok tt)) by reflexivity.
  split; [exact H|]. split; [reflexivity|].
  exact (clean_idempotent (W := demo_world) scenario_stale scenario_A H eq_refl).
Defined.

(** X14: the opening marker is among the lines the cleaning pass yields. *)
Lemma clean_yields_input_lines_witness :
  In opening_f (fst (demo_run scenario_stale true)) /\ In opening_f scenario_stale.
Proof.
  assert (H : In opening_f (fst (result_generator (W := demo_world)
                                   scenario_stale true)))
    by (right; left; reflexivity).
  split; [exact H|].
  exact (clean_yields_input_lines (W := demo_world) _ _ H).
Defined.

(** X15 on scenario C: the error cites line 2, the opening marker. *)
Lemma directive_error_cites_input_witness :
  demo_run scenario_C true
  = ([nl "head"; opening_f],
     Raise (InlineError "Directive not closed at end of file" opening_f 2))
  /\ 1 <= 2 <= length scenario_C
  /\ nth_error scenario_C (2 - 1) = Some opening_f.
Proof.
  assert (H : result_generator (W := demo_world) scenario_C true
              = ([nl "head"; opening_f],
                 Raise (InlineError "Directive not closed at end of file"
                                    opening_f 2))) by reflexivity.
  split; [exact H|].
  exact (directive_error_cites_input (W := demo_world) _ _ _ _ _ _ H).
Defined.

(** X17: scenario A cleaned over the two file systems. *)
Lemma clean_ignores_file_contents_witness :
  (forall p, file_kind (demo_fs p) = file_kind (demo_fs_changed p))
  /\ result_generator
       (W := world_of marker_feed demo_path_str demo_fs demo_maxsize)
       scenario_stale true
     = result_generator
         (W := world_of marker_feed demo_path_str demo_fs_changed demo_maxsize)
         scenario_stale true.
Proof.
  assert (K : forall p, file_kind (demo_fs p) = file_kind (demo_fs_changed p)).
  { intros p. unfold demo_fs_changed. now destruct (demo_fs p). }
  split; [exact K|].
  exact (clean_ignores_file_contents marker_feed demo_path_str demo_maxsize
           demo_fs demo_fs_changed K scenario_stale).
Defined.

(** X18 on the input with an old line between the markers. *)
Lemma cleaning_then_transforming_witness :
  demo_run scenario_stale false
  = ([nl "head"; opening_f; nl "a"; nl "b"; closing_inline; nl "tail"], Ok tt)
  /\ idle_close_free (W := demo_world) false 1 scenario_stale = true
  /\ exists cleaned,
      demo_run scenario_stale true = (cleaned, Ok tt)
      /\ demo_run cleaned false
         = ([nl "head"; opening_f; nl "a"; nl "b"; closing_inline; nl "tail"],
            Ok tt).
Proof.
  assert (H : result_generator (W := demo_world) scenario_stale false
              = ([nl "head"; opening_f; nl "a"; nl "b"; closing_inline; nl "tail"],
                 Ok tt)) by reflexivity.
  split; [exact H|]. split; [reflexivity|].
  exact (cleaning_then_transforming (W := demo_world) scenario_stale _ H eq_refl).
Defined.

(** C6 on [vault/f]: [exists()] raises, and the error is an [OSError]
    from the constructor and from the validation pass in clean mode. *)
Lemma inaccessible_source_escapes_witness :
  demo_fs "vault/f" = Inaccessible "[Errno 13] Permission denied: 'vault/f'"
  /\ demo_new OPENING 2 opening_vault (Some "vault/f") false None None None
     = Raise (OSError "[Errno 13] Permission denied: 'vault/f'")
  /\ demo_check ([nl "head"] ++ opening_vault :: [closing_inline]) true
     = Raise (OSError "[Errno 13] Permission denied: 'vault/f'").
Proof.
  pose proof (inaccessible_source_escapes (W := demo_world)
                2 opening_vault "vault/f" false None None None
                "[Errno 13] Permission denied: 'vault/f'" eq_refl) as [C1 C2].
  split; [reflexivity|]. split; [exact C1|].
  apply (C2 true [nl "head"] [closing_inline] [nl "head"] None
            "<inline src=vault/f>" "inline" [("src", Some "vault/f")]);
    try reflexivity.
  left; reflexivity.
Defined.

(** C7, on a comment with two start tags and on a comment whose tag is not
    finished: both look like an opening directive, neither is a single
    well-formed tag; parsing raises an [AssertionError] for the first and
    a [TypeError] for the second, and the validation pass ends with them;
    neither is a directive error, and neither carries the line or its
    number. *)
Theorem malformed_markup_escapes_untagged :
  (extract_line_comment opening_two_tags = Some "<inline src=f><inline src=f>"
   /\ looks_like_opening "<inline src=f><inline src=f>" = true
   /\ demo_parse opening_two_tags 1 = Raise AssertionError
   /\ demo_check [opening_two_tags; closing_inline] false = Raise AssertionError)
  /\ (extract_line_comment opening_unterminated = Some "<inline src='f'"
      /\ looks_like_opening "<inline src='f'" = true
      /\ demo_parse opening_unterminated 1
         = Raise (TypeError "'NoneType' object is not iterable")
      /\ demo_check [opening_unterminated; closing_inline] false
         = Raise (TypeError "'NoneType' object is not iterable")).
Proof.
  split; (split; [reflexivity|]; split; [reflexivity|]; split; reflexivity).
Qed.
